(** * Address-book assistant (SE_HW_1_2.py): a shallow embedding

    The program is a command-line contact manager.  This development
    embeds its data model (fields, records, the address book), the
    upcoming-birthday computation, the command handlers with their
    [input_error] decorator, and the interactive loop of [main], and then
    states the properties of the specification over that embedding.

    Conventions.
    - A Python [str] is a [string]; a character stands for the code point
      of the same number, so the model covers strings over U+0000..U+00FF.
    - A Python [int] is a [Z].
    - An exception is a pair of its class and its message; a computation
      that can raise returns a [result].
    - Code that reads or mutates the address book, prints, or reads the
      clock runs in the monad [M] over a [World]; what is written before
      an exception is raised stays written.
    - The messages of exceptions the library raises are those of one
      CPython release; the program never looks at them, and the
      properties below speak of the class of such an exception only.

    [Record.find_phone], [SimpleBot.return_help] and [TableBot], which
    formats with a library outside the program, are not embedded. *)

From Stdlib Require Import ZArith List String Ascii Bool Lia.
Import ListNotations.
Local Open Scope string_scope.
Local Open Scope Z_scope.

(** ** Exceptions and results *)

Inductive exn_class : Type :=
| ValueError
| KeyError
| IndexError
| EOFError
| UnpicklingError.

Definition exn : Type := (exn_class * string)%type.

Inductive result (A : Type) : Type :=
| Ok (a : A)
| Raise (e : exn).

Arguments Ok {A} a.
Arguments Raise {A} e.

Definition exn_class_eqb (a b : exn_class) : bool :=
  match a, b with
  | ValueError, ValueError
  | KeyError, KeyError
  | IndexError, IndexError
  | EOFError, EOFError
  | UnpicklingError, UnpicklingError => true
  | _, _ => false
  end.

(** [raises c r]: the computation ended with an exception of class [c]. *)
Definition raises {A : Type} (c : exn_class) (r : result A) : bool :=
  match r with
  | Ok _ => false
  | Raise (c', _) => exn_class_eqb c c'
  end.

Definition result_bind {A B : Type} (r : result A) (k : A -> result B) : result B :=
  match r with
  | Ok a => k a
  | Raise e => Raise e
  end.

(** ** The part of [str] the program uses *)

Module PyStr.

Definition code (c : ascii) : Z := Z.of_nat (nat_of_ascii c).

Definition chr (n : Z) : ascii := ascii_of_nat (Z.to_nat n).

(** [str.isdigit] on one character: the decimal digits and the
    characters of numeric type Digit, which below U+0100 are the
    superscripts U+00B2, U+00B3 and U+00B9. *)
Definition isdigit_char (c : ascii) : bool :=
  let n := code c in
  ((48 <=? n) && (n <=? 57)) || (n =? 178) || (n =? 179) || (n =? 185).

(** A character the regular expression [\d] matches (category Nd). *)
Definition isdecimal_char (c : ascii) : bool :=
  let n := code c in (48 <=? n) && (n <=? 57).

(** [str.isspace] on one character. *)
Definition isspace_char (c : ascii) : bool :=
  let n := code c in
  ((9 <=? n) && (n <=? 13)) || ((28 <=? n) && (n <=? 32))
  || (n =? 133) || (n =? 160).

Fixpoint all_chars (p : ascii -> bool) (s : string) : bool :=
  match s with
  | EmptyString => true
  | String c s' => p c && all_chars p s'
  end.

Definition is_empty (s : string) : bool :=
  match s with
  | EmptyString => true
  | String _ _ => false
  end.

(** [s.isdigit()]: every character is a digit and there is at least one. *)
Definition isdigit (s : string) : bool :=
  negb (is_empty s) && all_chars isdigit_char s.

Definition len (s : string) : Z := Z.of_nat (String.length s).

(** Is [s] exactly ten decimal digits, that is, does it match the
    regular expression [^\d{10}$] as a whole? *)
Definition ten_decimal_digits (s : string) : bool :=
  all_chars isdecimal_char s && (len s =? 10).

Definition lower_char (c : ascii) : ascii :=
  let n := code c in
  if ((65 <=? n) && (n <=? 90))
     || ((192 <=? n) && (n <=? 214))
     || ((216 <=? n) && (n <=? 222))
  then chr (n + 32) else c.

Fixpoint lower (s : string) : string :=
  match s with
  | EmptyString => EmptyString
  | String c s' => String (lower_char c) (lower s')
  end.

(** [s.strip()]: leading and trailing whitespace removed. *)
Fixpoint lstrip (s : string) : string :=
  match s with
  | EmptyString => EmptyString
  | String c s' => if isspace_char c then lstrip s' else s
  end.

Fixpoint rstrip (s : string) : string :=
  match s with
  | EmptyString => EmptyString
  | String c s' =>
      let r := rstrip s' in
      if is_empty r && isspace_char c then EmptyString else String c r
  end.

Definition strip (s : string) : string := rstrip (lstrip s).

(** [s.split()]: the maximal runs of non-whitespace characters.  [cur]
    is the run being read, if one is open. *)
Fixpoint split_from (s : string) (cur : option string) : list string :=
  match s with
  | EmptyString =>
      match cur with
      | Some w => [w]
      | None => []
      end
  | String c s' =>
      if isspace_char c then
        match cur with
        | Some w => w :: split_from s' None
        | None => split_from s' None
        end
      else
        match cur with
        | Some w => split_from s' (Some (w ++ String c EmptyString))
        | None => split_from s' (Some (String c EmptyString))
        end
  end.

Definition split (s : string) : list string := split_from s None.

(** [sep.join(parts)]. *)
Fixpoint join (sep : string) (parts : list string) : string :=
  match parts with
  | [] => EmptyString
  | [p] => p
  | p :: rest => p ++ sep ++ join sep rest
  end.

Definition digit (n : Z) : ascii := chr (48 + n).

(** ["%02d" % n] for [0 <= n < 100] and ["%04d" % n] for [0 <= n < 10000]. *)
Definition pad2 (n : Z) : string :=
  String (digit (n / 10)) (String (digit (n mod 10)) EmptyString).

Definition pad4 (n : Z) : string :=
  String (digit (n / 1000))
    (String (digit ((n / 100) mod 10))
       (String (digit ((n / 10) mod 10))
          (String (digit (n mod 10)) EmptyString))).

(** ["%d" % n] for [0 <= n < 10000]: the digits without padding. *)
Definition decimal (n : Z) : string :=
  if n <? 10 then String (digit n) EmptyString
  else if n <? 100 then pad2 n
  else if n <? 1000 then String (digit (n / 100)) (pad2 (n mod 100))
  else pad4 n.

End PyStr.

(** ** The part of [datetime] the program uses *)

Module Calendar.

Record date : Type := mkdate { year : Z; month : Z; day : Z }.

Definition is_leap (y : Z) : bool :=
  (y mod 4 =? 0) && (negb (y mod 100 =? 0) || (y mod 400 =? 0)).

Definition days_in_month (y m : Z) : Z :=
  if (m =? 2) && is_leap y then 29
  else nth (Z.to_nat m) [0; 31; 28; 31; 30; 31; 30; 31; 31; 30; 31; 30; 31] 0.

Definition days_before_year (y : Z) : Z :=
  let y' := y - 1 in y' * 365 + y' / 4 - y' / 100 + y' / 400.

Definition days_before_month (y m : Z) : Z :=
  nth (Z.to_nat m) [0; 0; 31; 59; 90; 120; 151; 181; 212; 243; 273; 304; 334] 0
  + (if (2 <? m) && is_leap y then 1 else 0).

(** [date.toordinal()]: 1 for 0001-01-01. *)
Definition toordinal (d : date) : Z :=
  days_before_year (year d) + days_before_month (year d) (month d) + day d.

(** [date.weekday()]: Monday is 0, Saturday 5, Sunday 6. *)
Definition weekday (d : date) : Z := (toordinal d + 6) mod 7.

Definition valid_ymd (y m d : Z) : bool :=
  (1 <=? y) && (y <=? 9999) && (1 <=? m) && (m <=? 12)
  && (1 <=? d) && (d <=? days_in_month y m).

Definition valid_date (d : date) : bool :=
  valid_ymd (year d) (month d) (day d).

(** [datetime(y, m, d).date()]: the constructor checks its fields. *)
Definition datetime_date (y m d : Z) : result date :=
  if negb ((1 <=? y) && (y <=? 9999)) then
    Raise (ValueError, "year is out of range")
  else if negb ((1 <=? m) && (m <=? 12)) then
    Raise (ValueError, "month must be in 1..12")
  else if negb ((1 <=? d) && (d <=? days_in_month y m)) then
    Raise (ValueError, "day is out of range for month")
  else Ok (mkdate y m d).

(** [a < b] on dates compares (year, month, day). *)
Definition date_ltb (a b : date) : bool :=
  (year a <? year b)
  || ((year a =? year b)
      && ((month a <? month b)
          || ((month a =? month b) && (day a <? day b)))).

(** [(a - b).days]. *)
Definition days_between (a b : date) : Z := toordinal a - toordinal b.

(** [d.strftime("%d.%m.%Y")] for a valid date: day and month on two
    digits, and the year as the C library writes [%Y], without padding,
    so a year below 1000 has fewer than four digits. *)
Definition strftime_dmY (d : date) : string :=
  PyStr.pad2 (day d) ++ "." ++ PyStr.pad2 (month d) ++ "." ++ PyStr.decimal (year d).

(** [str(d)] for a valid date: the year always on four digits. *)
Definition isoformat (d : date) : string :=
  PyStr.pad4 (year d) ++ "-" ++ PyStr.pad2 (month d) ++ "-" ++ PyStr.pad2 (day d).

End Calendar.

Import Calendar.

(** ** Insertion-ordered dictionaries with string keys *)

Module Dict.

Definition t (V : Type) : Type := list (string * V).

(** [d.get(k)]. *)
Fixpoint get {V : Type} (k : string) (d : t V) : option V :=
  match d with
  | [] => None
  | (k', v) :: rest => if String.eqb k' k then Some v else get k rest
  end.

(** [d[k] = v]: an existing key keeps its place, a new one goes last. *)
Fixpoint set {V : Type} (k : string) (v : V) (d : t V) : t V :=
  match d with
  | [] => [(k, v)]
  | (k', v') :: rest =>
      if String.eqb k' k then (k', v) :: rest else (k', v') :: set k v rest
  end.

Definition keys {V : Type} (d : t V) : list string := map fst d.

Definition values {V : Type} (d : t V) : list V := map snd d.

(** [del d[k]], for a key that is present; without it nothing changes. *)
Fixpoint del {V : Type} (k : string) (d : t V) : t V :=
  match d with
  | [] => []
  | (k', v) :: rest =>
      if String.eqb k' k then rest else (k', v) :: del k rest
  end.

(** [k in d]. *)
Definition mem {V : Type} (k : string) (d : t V) : bool :=
  existsb (fun kv => String.eqb (fst kv) k) d.

End Dict.

(** ** Fields *)

(** [Name(name)]: the stored value, or [ValueError] on an empty name. *)
Definition Name (name : string) : result string :=
  if PyStr.is_empty name then Raise (ValueError, "Name must not be empty.")
  else Ok name.

(** [Phone(phone)]. *)
Definition Phone (phone : string) : result string :=
  if negb (PyStr.isdigit phone) || negb (PyStr.len phone =? 10) then
    Raise (ValueError, "Phone number must have 10 digits.")
  else Ok phone.

(** [datetime.strptime(value, "%d.%m.%Y").date()].  The directives are
    the regular expressions of the library: for the day
    [3[0-1]|[1-2]\d|0[1-9]|[1-9]| [1-9]], for the month
    [1[0-2]|0[1-9]|[1-9]], for the year [\d\d\d\d]; nothing may follow
    the year, and the numbers read must make a date. *)
Module Strptime.

Definition is_char (n : Z) (c : ascii) : bool := PyStr.code c =? n.

Definition between (lo hi : Z) (c : ascii) : bool :=
  (lo <=? PyStr.code c) && (PyStr.code c <=? hi).

Definition val (c : ascii) : Z := PyStr.code c - 48.

Definition dot : Z := 46.

Definition day_directive (s : string) : option (Z * string) :=
  match s with
  | String a (String b rest) =>
      if is_char dot b then
        if between 49 57 a then Some (val a, rest) else None
      else
        match rest with
        | String c rest' =>
            if negb (is_char dot c) then None
            else if (is_char 51 a && between 48 49 b)
                    || (between 49 50 a && between 48 57 b)
                    || (is_char 48 a && between 49 57 b)
            then Some (10 * val a + val b, rest')
            else if is_char 32 a && between 49 57 b
            then Some (val b, rest')
            else None
        | EmptyString => None
        end
  | _ => None
  end.

Definition month_directive (s : string) : option (Z * string) :=
  match s with
  | String a (String b rest) =>
      if is_char dot b then
        if between 49 57 a then Some (val a, rest) else None
      else
        match rest with
        | String c rest' =>
            if negb (is_char dot c) then None
            else if (is_char 49 a && between 48 50 b)
                    || (is_char 48 a && between 49 57 b)
            then Some (10 * val a + val b, rest')
            else None
        | EmptyString => None
        end
  | _ => None
  end.

Definition year_directive (s : string) : option Z :=
  match s with
  | String a (String b (String c (String d EmptyString))) =>
      if between 48 57 a && between 48 57 b && between 48 57 c && between 48 57 d
      then Some (1000 * val a + 100 * val b + 10 * val c + val d)
      else None
  | _ => None
  end.

Definition strptime_dmY (value : string) : result date :=
  match day_directive value with
  | None => Raise (ValueError, "time data does not match format")
  | Some (d, rest) =>
      match month_directive rest with
      | None => Raise (ValueError, "time data does not match format")
      | Some (m, rest') =>
          match year_directive rest' with
          | None => Raise (ValueError, "time data does not match format")
          | Some y => datetime_date y m d
          end
      end
  end.

End Strptime.

(** [Birthday(value)]: a [ValueError] of the parse is raised again with
    the program's own message. *)
Definition Birthday (value : string) : result date :=
  match Strptime.strptime_dmY value with
  | Ok d => Ok d
  | Raise (ValueError, _) => Raise (ValueError, "Invalid date format. Use DD.MM.YYYY")
  | Raise e => Raise e
  end.

(** ** Records *)

Module Record.

Record t : Type := mk {
  name : string;
  phones : list string;
  birthday : option date
}.

(** [Record(name)]. *)
Definition init (name : string) : result t :=
  result_bind (Name name) (fun n => Ok (mk n [] None)).

Definition add_birthday (birthday : string) (self : t) : result t :=
  result_bind (Birthday birthday)
    (fun b => Ok (mk (name self) (phones self) (Some b))).

Definition add_phone (phone : string) (self : t) : result t :=
  result_bind (Phone phone)
    (fun p => Ok (mk (name self) (phones self ++ [p])%list (birthday self))).

Definition edit_phone (old_phone new_phone : string) (self : t) : result t :=
  let phone_exists := negb (existsb (fun p => String.eqb p old_phone) (phones self)) in
  if phone_exists then
    Raise (ValueError, "Phone number to edit does not exist.")
  else if negb (PyStr.isdigit new_phone) || negb (PyStr.len new_phone =? 10) then
    Raise (ValueError, "New phone number must be a 10-digit number.")
  else
    Ok (mk (name self)
           (map (fun ph => if String.eqb ph old_phone then new_phone else ph)
                (phones self))
           (birthday self)).

(** [str(record)]. *)
Definition str (self : t) : string :=
  let birthday_str :=
    match birthday self with
    | Some b => strftime_dmY b
    | None => "Not specified"
    end in
  "Contact name: " ++ name self ++ ", phones: "
    ++ PyStr.join "; " (phones self) ++ ", birthday: " ++ birthday_str.

(** The loop of [remove_phone] over what is left of the list.  The loop
    walks the list by position while [list.remove] shortens it: the
    [Phone] objects are distinct and compare by identity, so the object
    removed is the one at hand, and the one after it moves into its
    place and is passed over. *)
Fixpoint remove_phone_loop (phone : string) (phones : list string) : list string :=
  match phones with
  | [] => []
  | ph :: rest =>
      if String.eqb ph phone then
        match rest with
        | [] => []
        | passed_over :: rest' => passed_over :: remove_phone_loop phone rest'
        end
      else ph :: remove_phone_loop phone rest
  end.

Definition remove_phone (phone : string) (self : t) : t :=
  mk (name self) (remove_phone_loop phone (phones self)) (birthday self).

End Record.

(** ** The world a command runs in *)

Record World : Type := mkWorld {
  book : Dict.t Record.t;   (* the address book object of [main] *)
  stdout : list string;     (* what has been printed, oldest first *)
  today : date              (* what [datetime.today().date()] returns *)
}.

Definition M (A : Type) : Type := World -> result A * World.

Definition ret {A : Type} (a : A) : M A := fun w => (Ok a, w).

Definition bind {A B : Type} (c : M A) (k : A -> M B) : M B :=
  fun w =>
    match c w with
    | (Ok a, w') => k a w'
    | (Raise e, w') => (Raise e, w')
    end.

Definition raise {A : Type} (e : exn) : M A := fun w => (Raise e, w).

Definition lift {A : Type} (r : result A) : M A := fun w => (r, w).

Declare Scope m_scope.
Delimit Scope m_scope with m.
Notation "x <- c ;; k" := (bind c (fun x => k))
  (at level 61, c at next level, right associativity) : m_scope.
Notation "c ;; k" := (bind c (fun _ => k))
  (at level 61, right associativity) : m_scope.
Local Open Scope m_scope.

Definition get_book : M (Dict.t Record.t) := fun w => (Ok (book w), w).

Definition put_book (b : Dict.t Record.t) : M unit :=
  fun w => (Ok tt, mkWorld b (stdout w) (today w)).

Definition datetime_today : M date := fun w => (Ok (today w), w).

Definition print (line : string) : M unit :=
  fun w => (Ok tt, mkWorld (book w) (stdout w ++ [line])%list (today w)).

(** [for x in xs: acc = body(x, acc)]. *)
Fixpoint for_each {A B : Type} (xs : list A) (body : A -> B -> M B) (acc : B) : M B :=
  match xs with
  | [] => ret acc
  | x :: rest => acc' <- body x acc ;; for_each rest body acc'
  end.

(** ** The address book *)

Record entry : Type := mk_entry {
  entry_name : string;
  congratulation_date : string
}.

Module AddressBook.

Definition t : Type := Dict.t Record.t.

(** [AddressBook()]. *)
Definition empty : t := [].

Definition add_record (record : Record.t) : M unit :=
  data <- get_book ;;
  put_book (Dict.set (Record.name record) record data).

Definition find (name : string) : M (option Record.t) :=
  data <- get_book ;;
  ret (Dict.get name data).

(** One round of the loop of [get_upcoming_birthdays]. *)
Definition upcoming_body (today : date) (user : Record.t)
    (upcoming_birthdays : list entry) : M (list entry) :=
  match Record.birthday user with
  | None => ret upcoming_birthdays
  | Some b =>
      birthday_this_year <- lift (datetime_date (year today) (month b) (day b)) ;;
      if date_ltb birthday_this_year today then ret upcoming_birthdays
      else if days_between birthday_this_year today <? 7 then
        shifted <-
          (if weekday birthday_this_year =? 5 then
             lift (datetime_date (year birthday_this_year)
                     (month birthday_this_year) (day birthday_this_year + 2))
           else if weekday birthday_this_year =? 6 then
             lift (datetime_date (year birthday_this_year)
                     (month birthday_this_year) (day birthday_this_year + 1))
           else ret birthday_this_year) ;;
        ret (upcoming_birthdays
               ++ [mk_entry (Record.name user) (strftime_dmY shifted)])%list
      else ret upcoming_birthdays
  end.

Definition get_upcoming_birthdays : M (list entry) :=
  today <- datetime_today ;;
  data <- get_book ;;
  for_each (Dict.values data) (upcoming_body today) [].

(** [delete(name)], on the data of the book and its attribute
    [self.name], which the method sets before it looks for the key. *)
Definition delete (name : string) (self : t * option string) : t * option string :=
  let data := fst self in
  (if Dict.mem name data then Dict.del name data else data, Some name).

End AddressBook.

(** ** The decorator and the handlers *)

(** [except ValueError as e: handler(str(e))] around [body]. *)
Definition try_except_ValueError {A : Type} (body : M A) (handler : string -> M A) : M A :=
  fun w =>
    match body w with
    | (Raise (ValueError, msg), w') => handler msg w'
    | other => other
    end.

(** [input_error(func)]: every exception of [func] becomes a message. *)
Definition input_error (func : M string) : M string :=
  fun w =>
    match func w with
    | (Ok s, w') => (Ok s, w')
    | (Raise (KeyError, _), w') => (Ok "This command can not be executed.", w')
    | (Raise (ValueError, _), w') => (Ok "Give me name and phone please.", w')
    | (Raise (IndexError, _), w') => (Ok "There is no such information.", w')
    | (Raise (_, msg), w') => (Ok ("Error: " ++ msg), w')
    end.

(** [a, b = args]. *)
Definition unpack2 (args : list string) : result (string * string) :=
  match args with
  | [a; b] => Ok (a, b)
  | [] => Raise (ValueError, "not enough values to unpack (expected 2, got 0)")
  | [_] => Raise (ValueError, "not enough values to unpack (expected 2, got 1)")
  | _ => Raise (ValueError, "too many values to unpack (expected 2)")
  end.

(** [xs[0]]. *)
Definition index0 {A : Type} (xs : list A) : result A :=
  match xs with
  | x :: _ => Ok x
  | [] => Raise (IndexError, "list index out of range")
  end.

(** A method that mutated the record found under [name]: the book holds
    that same object, so the change is written back under its key. *)
Definition write_back (name : string) (record : Record.t) : M unit :=
  data <- get_book ;;
  put_book (Dict.set name record data).

Definition add_birthday (args : list string) : M string :=
  input_error
    (nb <- lift (unpack2 args) ;;
     let (name, birthday) := nb : string * string in
     try_except_ValueError
       (record <- AddressBook.find name ;;
        match record with
        | Some r =>
            r' <- lift (Record.add_birthday birthday r) ;;
            write_back name r' ;;
            ret ("Birthday added for " ++ name ++ ".")
        | None => ret ("Contact " ++ name ++ " not found.")
        end)
       (fun msg => ret ("Error: " ++ msg))).

Definition show_birthday (args : list string) : M string :=
  input_error
    (name <- lift (index0 args) ;;
     record <- AddressBook.find name ;;
     match record with
     | Some r =>
         match Record.birthday r with
         | Some b => ret (name ++ "'s birthday: " ++ isoformat b)
         | None => ret (name ++ " does not have a birthday specified.")
         end
     | None => ret ("Contact " ++ name ++ " not found.")
     end).

Definition birthdays (args : list string) : M string :=
  input_error
    (upcoming_birthdays <- AddressBook.get_upcoming_birthdays ;;
     match upcoming_birthdays with
     | record :: _ =>
         print "Upcoming birthdays:" ;;
         ret ("The congratulation date for " ++ entry_name record
                ++ " is " ++ congratulation_date record)
     | [] => ret "No upcoming birthdays."
     end).

(** ** The command loop *)

Definition parse_input (user_input : string) : result (string * list string) :=
  match PyStr.split user_input with
  | [] => Raise (ValueError, "not enough values to unpack (expected at least 1, got 0)")
  | cmd :: args => Ok (PyStr.lower (PyStr.strip cmd), args)
  end.

Definition len_is_not {A : Type} (xs : list A) (n : nat) : bool :=
  negb (Nat.eqb (List.length xs) n).

(** The body of [while True] after [input] returned [user_input]; the
    result is [true] when the loop is left by [break]. *)
Definition main_iteration (user_input : string) : M bool :=
  parsed <- lift (parse_input user_input) ;;
  let (command, args) := parsed : string * list string in
  if String.eqb command "close" || String.eqb command "exit" then
    print "Good bye!" ;; ret true
  else if String.eqb command "hello" then
    print "How can I help you?" ;; ret false
  else if String.eqb command "add" then
    if len_is_not args 2 then print "Invalid number of arguments." ;; ret false
    else
      np <- lift (unpack2 args) ;;
      let (name, phone) := np : string * string in
      record <- lift (Record.init name) ;;
      record <- lift (Record.add_phone phone record) ;;
      AddressBook.add_record record ;;
      print ("Added new contact: " ++ name ++ " - " ++ phone) ;;
      ret false
  else if String.eqb command "change" then
    if len_is_not args 2 then print "Invalid number of arguments." ;; ret false
    else
      np <- lift (unpack2 args) ;;
      let (name, new_phone) := np : string * string in
      record <- AddressBook.find name ;;
      match record with
      | Some r =>
          old_phone <- lift (index0 (Record.phones r)) ;;
          r' <- lift (Record.edit_phone old_phone new_phone r) ;;
          write_back name r' ;;
          print ("Phone number changed for " ++ name ++ ".") ;;
          ret false
      | None => print ("Contact " ++ name ++ " not found.") ;; ret false
      end
  else if String.eqb command "phone" then
    if len_is_not args 1 then print "Invalid number of arguments." ;; ret false
    else
      name <- lift (index0 args) ;;
      record <- AddressBook.find name ;;
      match record with
      | Some r =>
          phone <- lift (index0 (Record.phones r)) ;;
          print ("Phone number for " ++ name ++ ": " ++ phone) ;;
          ret false
      | None => print ("Contact " ++ name ++ " not found.") ;; ret false
      end
  else if String.eqb command "all" then
    print "All contacts:" ;;
    data <- get_book ;;
    for_each (Dict.values data) (fun record _ => print (Record.str record)) tt ;;
    ret false
  else if String.eqb command "add-birthday" then
    if len_is_not args 2 then print "Invalid number of arguments." ;; ret false
    else message <- add_birthday args ;; print message ;; ret false
  else if String.eqb command "show-birthday" then
    if len_is_not args 1 then print "Invalid number of arguments." ;; ret false
    else message <- show_birthday args ;; print message ;; ret false
  else if String.eqb command "birthdays" then
    message <- birthdays args ;; print message ;; ret false
  else
    print "Invalid command." ;; ret false.

(** The loop over the lines standard input still holds: [input] writes
    its prompt and raises [EOFError] when no line is left. *)
Fixpoint main_loop (stdin : list string) : M unit :=
  match stdin with
  | [] =>
      print "Enter a command: " ;;
      raise (EOFError, "EOF when reading a line")
  | user_input :: rest =>
      print "Enter a command: " ;;
      stop <- main_iteration user_input ;;
      if stop : bool then ret tt else main_loop rest
  end.

(** ** Persistence *)

Definition default_filename : string := "addressbook.pkl".

Section Persistence.

(** The serialisation is the library's: [pickle.dump] turns a book into
    a blob, [pickle.load] reads a blob. *)
Variable blob : Type.
Variable pickle_dump : AddressBook.t -> blob.
Variable pickle_load : blob -> result AddressBook.t.

Definition FileSystem : Type := string -> option blob.

Definition save_data (book : AddressBook.t) (filename : string)
    (fs : FileSystem) : FileSystem :=
  fun f => if String.eqb f filename then Some (pickle_dump book) else fs f.

Definition load_data (filename : string) (fs : FileSystem) : result AddressBook.t :=
  match fs filename with
  | Some b => pickle_load b
  | None => Ok AddressBook.empty
  end.

(** [main()], run on the lines of standard input, the clock and the
    files; it yields how it ended, what it printed and the files. *)
Definition main (stdin : list string) (clock : date) (fs : FileSystem)
    : result unit * list string * FileSystem :=
  match load_data default_filename fs with
  | Raise e => (Raise e, [], fs)
  | Ok loaded =>
      match (print "Welcome to the assistant bot!" ;; main_loop stdin)
              (mkWorld loaded [] clock) with
      | (Ok _, w) => (Ok tt, stdout w, save_data (book w) default_filename fs)
      | (Raise e, w) => (Raise e, stdout w, fs)
      end
  end.

End Persistence.

Arguments save_data {blob} pickle_dump book filename fs.
Arguments load_data {blob} pickle_load filename fs.
Arguments main {blob} pickle_dump pickle_load stdin clock fs.

(** ** What the specification says, for comparison with the code *)

(** The specification's window test: the candidate is the birthday's
    month and day in today's year, and it qualifies when
    [0 <= (candidate - today).days < 7]. *)
Definition spec_in_window (today : date) (r : Record.t) : bool :=
  match Record.birthday r with
  | None => false
  | Some b =>
      match datetime_date (year today) (month b) (day b) with
      | Ok candidate =>
          (0 <=? days_between candidate today) && (days_between candidate today <? 7)
      | Raise _ => false
      end
  end.

(** The specification's roll-forward: two days from a Saturday, one day
    from a Sunday, none otherwise. *)
Definition spec_weekend_shift (wd : Z) : Z :=
  if wd =? 5 then 2 else if wd =? 6 then 1 else 0.

(** [e] is the entry the specification prescribes for [r]: the name of
    [r], and the date that lies two days after a Saturday candidate, one
    day after a Sunday candidate, and is the candidate otherwise. *)
Definition congratulates (today : date) (e : entry) (r : Record.t) : Prop :=
  exists b candidate emitted,
    Record.birthday r = Some b
    /\ datetime_date (year today) (month b) (day b) = Ok candidate
    /\ entry_name e = Record.name r
    /\ congratulation_date e = strftime_dmY emitted
    /\ valid_date emitted = true
    /\ (weekday candidate = 5 -> days_between emitted candidate = 2)
    /\ (weekday candidate = 6 -> days_between emitted candidate = 1)
    /\ (weekday candidate <> 5 -> weekday candidate <> 6 -> emitted = candidate).

(** The check both [Phone] and [edit_phone] make before they store. *)
Definition phone_accepted (phone : string) : bool :=
  PyStr.isdigit phone && (PyStr.len phone =? 10).

Definition no_space (s : string) : bool :=
  PyStr.all_chars (fun c => negb (PyStr.isspace_char c)) s.

Definition is_ascii (s : string) : bool :=
  PyStr.all_chars (fun c => PyStr.code c <? 128) s.

(** ** Scenarios *)

Definition record_with (name : string) (birthday : date) : Record.t :=
  Record.mk name ["1234567890"%string] (Some birthday).

(** The scenario of the specification: Monday 2024-06-10, with Anna
    (15 June, a Saturday), Bob (1 June, passed) and Cara (20 June). *)
Definition spec_scenario : World :=
  mkWorld
    [("Anna"%string, record_with "Anna" (mkdate 1990 6 15));
     ("Bob"%string, record_with "Bob" (mkdate 1990 6 1));
     ("Cara"%string, record_with "Cara" (mkdate 1990 6 20))]
    [] (mkdate 2024 6 10).

(** Monday 2024-08-26 with a birthday on 31 August, a Saturday and the
    last day of its month. *)
Definition month_end_saturday : World :=
  mkWorld [("Eve"%string, record_with "Eve" (mkdate 1990 8 31))]
    [] (mkdate 2024 8 26).

(** Thursday 2023-12-28 with a birthday on 31 December, a Sunday and the
    last day of its year. *)
Definition year_end_sunday : World :=
  mkWorld [("Noel"%string, record_with "Noel" (mkdate 1985 12 31))]
    [] (mkdate 2023 12 28).

(** Wednesday 2023-03-01, not a leap year, with a birthday on 29 February. *)
Definition leap_day_record : Record.t := record_with "Leap" (mkdate 2000 2 29).

Definition nonleap_scenario : World :=
  mkWorld [("Leap"%string, leap_day_record)] [] (mkdate 2023 3 1).

(** Wednesday 2023-03-01, not a leap year: Sara's birthday falls on
    Saturday 4 March, three days ahead, and the book also holds a
    birthday on 29 February. *)
Definition sara : Record.t := record_with "Sara" (mkdate 1990 3 4).

Definition leap_neighbour : World :=
  mkWorld [("Sara"%string, sara); ("Leap"%string, leap_day_record)]
    [] (mkdate 2023 3 1).

(** Two birthdays inside the window: Anna on Tuesday, Dan on Thursday. *)
Definition two_upcoming : World :=
  mkWorld
    [("Anna"%string, record_with "Anna" (mkdate 1990 6 11));
     ("Dan"%string, record_with "Dan" (mkdate 1991 6 13))]
    [] (mkdate 2024 6 10).

(** Ten times U+00B2, SUPERSCRIPT TWO. *)
Definition superscript_twos : string :=
  let c := "178"%char in
  String c (String c (String c (String c (String c
    (String c (String c (String c (String c (String c EmptyString))))))))).

(** ** The plain-text bot *)

Section Bots.

Variable blob : Type.
Variable pickle_load : blob -> result AddressBook.t.

(** [SimpleBot.return_all()]: the records of the saved book, one line
    each. *)
Definition SimpleBot_return_all (fs : FileSystem blob) : M unit :=
  loaded <- lift (load_data pickle_load default_filename fs) ;;
  for_each (Dict.values loaded) (fun record _ => print (Record.str record)) tt.

End Bots.

Arguments SimpleBot_return_all {blob} pickle_load fs.

(** ** What the commands keep *)

(** A token of a command line: not empty and free of whitespace. *)
Definition is_word (s : string) : bool := negb (PyStr.is_empty s) && no_space s.

(** A contact as the commands of [main] leave it: stored under its own
    name, which is a token, with one phone that passed the check and a
    birthday, if any, that is a date. *)
Definition record_ok (key : string) (r : Record.t) : bool :=
  String.eqb (Record.name r) key
  && is_word key
  && match Record.phones r with
     | [p] => phone_accepted p
     | _ => false
     end
  && match Record.birthday r with
     | Some b => valid_date b
     | None => true
     end.

Definition book_ok (data : Dict.t Record.t) : Prop :=
  Forall (fun kv => record_ok (fst kv) (snd kv) = true) data.

(** The verb of a line the loop could parse. *)
Definition verb_is (line verb : string) : Prop :=
  exists args, parse_input line = Ok (verb, args).

(** What a command stores under [name]: a fresh record with one phone
    ([add]), the record it found with a phone replaced ([change]), or
    the record it found with a birthday set ([add-birthday]). *)
Inductive stored_by (w : World) (name : string) (r : Record.t) : Prop :=
| stored_by_add (phone : string) :
    r = Record.mk name [phone] None ->
    is_word name = true ->
    phone_accepted phone = true ->
    stored_by w name r
| stored_by_change (found : Record.t) (old_phone new_phone : string) :
    Dict.get name (book w) = Some found ->
    index0 (Record.phones found) = Ok old_phone ->
    Record.edit_phone old_phone new_phone found = Ok r ->
    stored_by w name r
| stored_by_add_birthday (found : Record.t) (birthday : string) :
    Dict.get name (book w) = Some found ->
    Record.add_birthday birthday found = Ok r ->
    stored_by w name r.

(** What one round of the loop can do to the world. *)
Inductive command_effect (line : string) (w : World) : result bool -> World -> Prop :=
| effect_escape (e : exn) :
    fst e = ValueError
    \/ (fst e = IndexError
        /\ exists name found,
             Dict.get name (book w) = Some found /\ Record.phones found = []) ->
    command_effect line w (Raise e) w
| effect_break (outs : list string) :
    verb_is line "close" \/ verb_is line "exit" ->
    command_effect line w (Ok true)
      (mkWorld (book w) (stdout w ++ outs) (today w))
| effect_output (outs : list string) :
    command_effect line w (Ok false)
      (mkWorld (book w) (stdout w ++ outs) (today w))
| effect_store (name : string) (r : Record.t) (outs : list string) :
    stored_by w name r ->
    command_effect line w (Ok false)
      (mkWorld (Dict.set name r (book w)) (stdout w ++ outs) (today w)).

(** ** What [remove_phone] leaves behind *)

(** Does [phone] stand twice in a row somewhere in the list? *)
Fixpoint neighbours (phone : string) (phones : list string) : bool :=
  match phones with
  | [] => false
  | ph :: rest =>
      match rest with
      | [] => false
      | next :: _ =>
          (String.eqb ph phone && String.eqb next phone) || neighbours phone rest
      end
  end.

Definition is_not (phone : string) (ph : string) : bool :=
  negb (String.eqb ph phone).

(** * Properties *)

(** ** Calendar facts *)

Lemma month_cases (m : Z) :
  1 <= m <= 12 ->
  m = 1 \/ m = 2 \/ m = 3 \/ m = 4 \/ m = 5 \/ m = 6 \/
  m = 7 \/ m = 8 \/ m = 9 \/ m = 10 \/ m = 11 \/ m = 12.
Proof. lia. Qed.

Ltac split_month H :=
  apply month_cases in H;
  repeat (destruct H as [H | H]; [subst | ]); [ .. | subst ].

Ltac month_tables :=
  cbv [days_in_month days_before_month nth Z.to_nat Pos.to_nat Pos.iter_op
       Nat.add Z.eqb Pos.eqb Z.ltb Z.compare Pos.compare Pos.compare_cont andb] in *;
  try destruct (is_leap _); cbv iota in *.

Lemma valid_ymd_spec y m d :
  valid_ymd y m d = true <->
  1 <= y <= 9999 /\ 1 <= m <= 12 /\ 1 <= d <= days_in_month y m.
Proof.
  unfold valid_ymd. rewrite !andb_true_iff, !Z.leb_le. tauto.
Qed.

Lemma days_before_next_month y m :
  1 <= m < 12 ->
  days_before_month y (m + 1) = days_before_month y m + days_in_month y m.
Proof.
  intros H.
  assert (Hm : 1 <= m <= 12) by lia.
  split_month Hm; try lia;
    unfold days_before_month, days_in_month; simpl;
    destruct (is_leap y); simpl; lia.
Qed.

Lemma days_in_month_pos y m : 1 <= m <= 12 -> 28 <= days_in_month y m <= 31.
Proof.
  intros Hm. split_month Hm; month_tables; lia.
Qed.

Lemma days_before_month_mono y m1 m2 :
  1 <= m1 -> m1 < m2 -> m2 <= 12 ->
  days_before_month y m1 + days_in_month y m1 <= days_before_month y m2.
Proof.
  intros H1 Hlt H2.
  assert (Hm1 : 1 <= m1 <= 12) by lia.
  assert (Hm2 : 1 <= m2 <= 12) by lia.
  split_month Hm1; split_month Hm2; try lia; month_tables; lia.
Qed.

Lemma same_year_order (a b : date) :
  valid_date a = true -> valid_date b = true -> year a = year b ->
  date_ltb a b = (toordinal a <? toordinal b).
Proof.
  destruct a as [ya ma da], b as [yb mb db].
  unfold valid_date, date_ltb, toordinal; simpl.
  rewrite !valid_ymd_spec. intros (_ & Hma & Hda) (_ & Hmb & Hdb) ->.
  rewrite Z.ltb_irrefl, Z.eqb_refl. simpl.
  destruct (Z.lt_trichotomy ma mb) as [Hlt | [-> | Hgt]].
  - pose proof (days_before_month_mono yb ma mb ltac:(lia) Hlt ltac:(lia)).
    replace (ma <? mb) with true by (symmetry; apply Z.ltb_lt; lia).
    simpl. symmetry. apply Z.ltb_lt. lia.
  - rewrite Z.ltb_irrefl, Z.eqb_refl. simpl.
    destruct (Z.ltb_spec da db), (Z.ltb_spec (days_before_year yb + days_before_month yb mb + da) (days_before_year yb + days_before_month yb mb + db)); auto; lia.
  - pose proof (days_before_month_mono yb mb ma ltac:(lia) Hgt ltac:(lia)).
    replace (ma <? mb) with false by (symmetry; apply Z.ltb_ge; lia).
    replace (ma =? mb) with false by (symmetry; apply Z.eqb_neq; lia).
    simpl. symmetry. apply Z.ltb_ge. lia.
Qed.

Lemma days_before_next_year y :
  days_before_year (y + 1) = days_before_year y + 365 + (if is_leap y then 1 else 0).
Proof.
  unfold days_before_year, is_leap.
  replace (y + 1 - 1) with y by lia.
  destruct (Z.eqb_spec (y mod 4) 0), (Z.eqb_spec (y mod 100) 0), (Z.eqb_spec (y mod 400) 0); simpl;
  Z.to_euclidean_division_equations; lia.
Qed.

Lemma days_before_year_mono y1 y2 :
  y1 <= y2 -> days_before_year y1 <= days_before_year y2.
Proof.
  unfold days_before_year. cbv zeta. intros H.
  pose proof (Z.div_le_mono (y1 - 1) (y2 - 1) 4 ltac:(lia) ltac:(lia)).
  pose proof (Z.div_le_mono (y1 - 1) (y2 - 1) 400 ltac:(lia) ltac:(lia)).
  assert ((y2 - 1) / 100 - (y1 - 1) / 100 <= y2 - y1)
    by (Z.to_euclidean_division_equations; lia).
  lia.
Qed.

Lemma day_of_year_bound y m d :
  1 <= m <= 12 -> 1 <= d <= days_in_month y m ->
  1 <= days_before_month y m + d <= 365 + (if is_leap y then 1 else 0).
Proof.
  intros Hm Hd. split_month Hm; month_tables; lia.
Qed.

Lemma toordinal_lt (a b : date) :
  valid_date a = true -> valid_date b = true ->
  date_ltb a b = true -> toordinal a < toordinal b.
Proof.
  intros Ha Hb Hlt.
  destruct (Z.eq_dec (year a) (year b)) as [Heq | Hne].
  - rewrite (same_year_order a b Ha Hb Heq) in Hlt. now apply Z.ltb_lt.
  - assert (Hy : year a < year b).
    { unfold date_ltb in Hlt. apply orb_true_iff in Hlt as [H | H].
      - now apply Z.ltb_lt.
      - apply andb_true_iff in H as [H _]. apply Z.eqb_eq in H. contradiction. }
    unfold valid_date in Ha, Hb. rewrite valid_ymd_spec in Ha, Hb.
    destruct Ha as (_ & Hma & Hda), Hb as (_ & Hmb & Hdb).
    pose proof (day_of_year_bound _ _ _ Hma Hda).
    pose proof (day_of_year_bound _ _ _ Hmb Hdb).
    pose proof (days_before_next_year (year a)).
    pose proof (days_before_year_mono (year a + 1) (year b) ltac:(lia)).
    unfold toordinal. lia.
Qed.

Lemma date_ltb_total (a b : date) :
  date_ltb a b = true \/ a = b \/ date_ltb b a = true.
Proof.
  destruct a as [ya ma da], b as [yb mb db]. unfold date_ltb; simpl.
  destruct (Z.lt_trichotomy ya yb) as [H | [-> | H]].
  - left. apply orb_true_iff. left. now apply Z.ltb_lt.
  - destruct (Z.lt_trichotomy ma mb) as [H | [-> | H]].
    + left. rewrite Z.eqb_refl. replace (ma <? mb) with true by (symmetry; now apply Z.ltb_lt).
      simpl. apply orb_true_r.
    + destruct (Z.lt_trichotomy da db) as [H | [-> | H]].
      * left. rewrite !Z.eqb_refl. replace (da <? db) with true by (symmetry; now apply Z.ltb_lt).
        simpl. rewrite !orb_true_r. reflexivity.
      * right. left. reflexivity.
      * right. right. rewrite !Z.eqb_refl. replace (db <? da) with true by (symmetry; now apply Z.ltb_lt).
        simpl. rewrite !orb_true_r. reflexivity.
    + right. right. rewrite Z.eqb_refl. replace (mb <? ma) with true by (symmetry; now apply Z.ltb_lt).
      simpl. apply orb_true_r.
  - right. right. apply orb_true_iff. left. now apply Z.ltb_lt.
Qed.

Lemma toordinal_inj (a b : date) :
  valid_date a = true -> valid_date b = true ->
  toordinal a = toordinal b -> a = b.
Proof.
  intros Ha Hb Heq.
  destruct (date_ltb_total a b) as [H | [H | H]]; auto.
  - apply (toordinal_lt a b Ha Hb) in H. lia.
  - apply (toordinal_lt b a Hb Ha) in H. lia.
Qed.

Lemma datetime_date_Ok y m d c :
  datetime_date y m d = Ok c -> c = mkdate y m d /\ valid_ymd y m d = true.
Proof.
  unfold datetime_date, valid_ymd.
  destruct ((1 <=? y) && (y <=? 9999)); simpl; [ | discriminate ].
  destruct ((1 <=? m) && (m <=? 12)); simpl; [ | discriminate ].
  destruct ((1 <=? d) && (d <=? days_in_month y m)); simpl; [ | discriminate ].
  intros [= <-]. auto.
Qed.

Lemma datetime_date_valid y m d :
  valid_ymd y m d = true -> datetime_date y m d = Ok (mkdate y m d).
Proof.
  unfold datetime_date, valid_ymd. rewrite !andb_true_iff.
  intros [[[[[-> ->] ->] ->] ->] ->]. reflexivity.
Qed.

Lemma datetime_date_invalid y m d :
  valid_ymd y m d = false -> raises ValueError (datetime_date y m d) = true.
Proof.
  unfold datetime_date, valid_ymd.
  destruct ((1 <=? y) && (y <=? 9999)); simpl; [ | reflexivity ].
  destruct ((1 <=? m) && (m <=? 12)); simpl; [ | reflexivity ].
  destruct ((1 <=? d) && (d <=? days_in_month y m)); simpl; [ discriminate | reflexivity ].
Qed.

Lemma datetime_date_only_ValueError y m d e :
  datetime_date y m d = Raise e -> fst e = ValueError.
Proof.
  unfold datetime_date.
  repeat match goal with |- context [if ?b then _ else _] => destruct b end;
    try discriminate; intros [= <-]; reflexivity.
Qed.


(** ** The loop of [get_upcoming_birthdays] *)

Lemma get_upcoming_birthdays_unfold w :
  AddressBook.get_upcoming_birthdays w
  = for_each (Dict.values (book w)) (AddressBook.upcoming_body (today w)) [] w.
Proof. reflexivity. Qed.

Lemma upcoming_body_frame today u acc w :
  snd (AddressBook.upcoming_body today u acc w) = w.
Proof.
  unfold AddressBook.upcoming_body, bind, lift, ret.
  destruct (Record.birthday u) as [b | ]; [ | reflexivity ].
  destruct (datetime_date (year today) (month b) (day b)) as [c | e]; [ | reflexivity ].
  destruct (date_ltb c today); [ reflexivity | ].
  destruct (days_between c today <? 7); [ | reflexivity ].
  destruct (weekday c =? 5).
  - destruct (datetime_date _ _ _); reflexivity.
  - destruct (weekday c =? 6); [ | reflexivity ].
    destruct (datetime_date _ _ _); reflexivity.
Qed.

Lemma for_each_frame {A B : Type} (body : A -> B -> M B) :
  (forall x acc w, snd (body x acc w) = w) ->
  forall xs acc w, snd (for_each xs body acc w) = w.
Proof.
  intros Hbody xs. induction xs as [ | x xs IH]; intros acc w; simpl.
  - reflexivity.
  - unfold bind. specialize (Hbody x acc w).
    destruct (body x acc w) as [[acc' | e] w']; simpl in Hbody; subst w'.
    + apply IH.
    + reflexivity.
Qed.

Lemma for_each_cons {A B : Type} (body : A -> B -> M B) x xs acc w :
  (forall x acc w, snd (body x acc w) = w) ->
  fst (for_each (x :: xs) body acc w)
  = match fst (body x acc w) with
    | Ok acc' => fst (for_each xs body acc' w)
    | Raise e => Raise e
    end.
Proof.
  intros Hbody. simpl. unfold bind. specialize (Hbody x acc w).
  destruct (body x acc w) as [[acc' | e] w']; simpl in *; subst; reflexivity.
Qed.

(** The result of one round, in closed form. *)
Lemma upcoming_body_result today u acc w :
  valid_date today = true ->
  fst (AddressBook.upcoming_body today u acc w)
  = match Record.birthday u with
    | None => Ok acc
    | Some b =>
        match datetime_date (year today) (month b) (day b) with
        | Raise e => Raise e
        | Ok c =>
            if (0 <=? days_between c today) && (days_between c today <? 7) then
              match datetime_date (year c) (month c)
                      (day c + spec_weekend_shift (weekday c)) with
              | Ok d => Ok (acc ++ [mk_entry (Record.name u) (strftime_dmY d)])%list
              | Raise e => Raise e
              end
            else Ok acc
        end
    end.
Proof.
  intros Htoday. unfold AddressBook.upcoming_body, bind, lift, ret.
  destruct (Record.birthday u) as [b | ]; [ | reflexivity ].
  destruct (datetime_date (year today) (month b) (day b)) as [c | e] eqn:Hc;
    [ | reflexivity ].
  apply datetime_date_Ok in Hc as [-> Hvalid].
  set (c := mkdate (year today) (month b) (day b)) in *.
  assert (Hord : date_ltb c today = (toordinal c <? toordinal today))
    by (apply same_year_order; auto).
  rewrite Hord. unfold days_between.
  destruct (Z.ltb_spec (toordinal c) (toordinal today)) as [Hlt | Hge].
  - replace (0 <=? toordinal c - toordinal today) with false
      by (symmetry; apply Z.leb_gt; lia).
    reflexivity.
  - replace (0 <=? toordinal c - toordinal today) with true
      by (symmetry; apply Z.leb_le; lia).
    simpl andb.
    destruct (toordinal c - toordinal today <? 7); [ | reflexivity ].
    unfold spec_weekend_shift.
    destruct (weekday c =? 5).
    + destruct (datetime_date _ _ _); reflexivity.
    + destruct (weekday c =? 6).
      * destruct (datetime_date _ _ _); reflexivity.
      * rewrite Z.add_0_r. unfold c at 1 2 3. simpl year. simpl month. simpl day.
        rewrite (datetime_date_valid _ _ _ Hvalid). reflexivity.
Qed.


Lemma shifted_congratulates today r b c d :
  Record.birthday r = Some b ->
  datetime_date (year today) (month b) (day b) = Ok c ->
  datetime_date (year c) (month c) (day c + spec_weekend_shift (weekday c)) = Ok d ->
  congratulates today (mk_entry (Record.name r) (strftime_dmY d)) r.
Proof.
  intros Hb Hc Hd. apply datetime_date_Ok in Hd as [-> Hvalid].
  exists b, c, (mkdate (year c) (month c) (day c + spec_weekend_shift (weekday c))).
  split; [ exact Hb | ]. split; [ exact Hc | ].
  split; [ reflexivity | ]. split; [ reflexivity | ].
  split; [ exact Hvalid | ].
  unfold spec_weekend_shift, days_between, toordinal. simpl.
  split; [ | split ].
  - intros ->. simpl. lia.
  - intros ->. simpl. lia.
  - intros H5 H6.
    replace (weekday c =? 5) with false by (symmetry; now apply Z.eqb_neq).
    replace (weekday c =? 6) with false by (symmetry; now apply Z.eqb_neq).
    rewrite Z.add_0_r. destruct c; reflexivity.
Qed.

(** What a normal run of the loop has collected: one entry for each
    record in the window, in the order of the records. *)
Lemma upcoming_loop_entries today xs :
  valid_date today = true ->
  forall acc w l,
    fst (for_each xs (AddressBook.upcoming_body today) acc w) = Ok l ->
    exists l', l = (acc ++ l')%list
      /\ Forall2 (congratulates today) l' (filter (spec_in_window today) xs).
Proof.
  intros Htoday. induction xs as [ | u xs IH]; intros acc w l Hrun.
  - simpl in Hrun. injection Hrun as <-. exists []. rewrite app_nil_r.
    split; constructor.
  - rewrite (for_each_cons _ _ _ _ _ (upcoming_body_frame today)) in Hrun.
    rewrite (upcoming_body_result _ _ _ _ Htoday) in Hrun.
    simpl filter. unfold spec_in_window at 1.
    destruct (Record.birthday u) as [b | ] eqn:Hb.
    + destruct (datetime_date (year today) (month b) (day b)) as [c | e] eqn:Hc;
        [ | discriminate ].
      destruct ((0 <=? days_between c today) && (days_between c today <? 7)).
      * destruct (datetime_date (year c) (month c) _) as [d | e] eqn:Hd;
          [ | discriminate ].
        apply IH in Hrun as (l' & -> & Hall).
        exists (mk_entry (Record.name u) (strftime_dmY d) :: l'). split.
        -- rewrite <- app_assoc. reflexivity.
        -- constructor; [ | exact Hall ].
           eapply shifted_congratulates; eauto.
      * apply IH in Hrun. exact Hrun.
    + apply IH in Hrun. exact Hrun.
Qed.

(** After a normal run every stored birthday had a candidate. *)
Lemma upcoming_loop_candidates today xs :
  valid_date today = true ->
  forall acc w l,
    fst (for_each xs (AddressBook.upcoming_body today) acc w) = Ok l ->
    forall r b, In r xs -> Record.birthday r = Some b ->
      exists c, datetime_date (year today) (month b) (day b) = Ok c.
Proof.
  intros Htoday. induction xs as [ | u xs IH]; intros acc w l Hrun r b Hin Hb.
  - destruct Hin.
  - rewrite (for_each_cons _ _ _ _ _ (upcoming_body_frame today)) in Hrun.
    rewrite (upcoming_body_result _ _ _ _ Htoday) in Hrun.
    destruct Hin as [-> | Hin].
    + rewrite Hb in Hrun.
      destruct (datetime_date (year today) (month b) (day b)) as [c | e];
        [ eauto | discriminate ].
    + destruct (match Record.birthday u with None => _ | Some _ => _ end)
        as [acc' | e]; [ | discriminate ].
      eapply IH; eauto.
Qed.

(** When the loop returns: every candidate is a date, and no weekend
    candidate in the window is moved past the end of its month. *)
Lemma upcoming_loop_returns today xs :
  valid_date today = true ->
  (forall r b, In r xs -> Record.birthday r = Some b ->
     exists c,
       datetime_date (year today) (month b) (day b) = Ok c
       /\ (spec_in_window today r = true ->
           day c + spec_weekend_shift (weekday c) <= days_in_month (year c) (month c))) ->
  forall acc w, exists l,
    fst (for_each xs (AddressBook.upcoming_body today) acc w) = Ok l.
Proof.
  intros Htoday. induction xs as [ | u xs IH]; intros Hall acc w.
  - exists acc. reflexivity.
  - rewrite (for_each_cons _ _ _ _ _ (upcoming_body_frame today)).
    rewrite (upcoming_body_result _ _ _ _ Htoday).
    assert (Hrest : forall r b, In r xs -> Record.birthday r = Some b ->
              exists c,
                datetime_date (year today) (month b) (day b) = Ok c
                /\ (spec_in_window today r = true ->
                    day c + spec_weekend_shift (weekday c)
                    <= days_in_month (year c) (month c)))
      by (intros r b Hin; apply Hall; now right).
    destruct (Record.birthday u) as [b | ] eqn:Hb; [ | now apply IH ].
    destruct (Hall u b (or_introl eq_refl) Hb) as (c & Hc & Hfit).
    unfold spec_in_window in Hfit. rewrite Hb, Hc in Hfit. rewrite Hc.
    destruct ((0 <=? days_between c today) && (days_between c today <? 7));
      [ | now apply IH ].
    specialize (Hfit eq_refl).
    apply datetime_date_Ok in Hc as [Hc Hvalid].
    assert (Hshift : 0 <= spec_weekend_shift (weekday c))
      by (unfold spec_weekend_shift;
          destruct (weekday c =? 5); [ lia | destruct (weekday c =? 6); lia ]).
    rewrite datetime_date_valid; [ now apply IH | ].
    rewrite Hc in *. simpl in *. apply valid_ymd_spec in Hvalid.
    apply valid_ymd_spec. lia.
Qed.

Lemma upcoming_body_only_ValueError today u acc w e :
  fst (AddressBook.upcoming_body today u acc w) = Raise e -> fst e = ValueError.
Proof.
  unfold AddressBook.upcoming_body, bind, lift, ret.
  destruct (Record.birthday u) as [b | ]; [ | simpl; discriminate ].
  destruct (datetime_date (year today) (month b) (day b)) as [c | e'] eqn:Hc.
  - destruct (date_ltb c today); [ simpl; discriminate | ].
    destruct (days_between c today <? 7); [ | simpl; discriminate ].
    destruct (weekday c =? 5).
    + destruct (datetime_date (year c) _ _) eqn:Hd; simpl; [ discriminate | ].
      intros [= <-]. eapply datetime_date_only_ValueError; eauto.
    + destruct (weekday c =? 6); [ | simpl; discriminate ].
      destruct (datetime_date (year c) _ _) eqn:Hd; simpl; [ discriminate | ].
      intros [= <-]. eapply datetime_date_only_ValueError; eauto.
  - simpl. intros [= <-]. eapply datetime_date_only_ValueError; eauto.
Qed.

Lemma raises_of_class {A : Type} (r : result A) e :
  r = Raise e -> fst e = ValueError -> raises ValueError r = true.
Proof. intros -> He. destruct e as [c msg]. simpl in *. now subst. Qed.

Lemma upcoming_loop_only_ValueError today xs :
  forall acc w e,
    fst (for_each xs (AddressBook.upcoming_body today) acc w) = Raise e ->
    fst e = ValueError.
Proof.
  induction xs as [ | u xs IH]; intros acc w e Hrun.
  - discriminate.
  - rewrite (for_each_cons _ _ _ _ _ (upcoming_body_frame today)) in Hrun.
    destruct (fst (AddressBook.upcoming_body today u acc w)) as [acc' | e'] eqn:Hu.
    + eapply IH; eauto.
    + injection Hrun as <-. eapply upcoming_body_only_ValueError; eauto.
Qed.

(** A record whose round raises, whatever was collected before it, makes
    the whole loop raise. *)
Lemma upcoming_loop_raises today xs u :
  In u xs ->
  (forall acc w,
     raises ValueError (fst (AddressBook.upcoming_body today u acc w)) = true) ->
  forall acc w,
    raises ValueError (fst (for_each xs (AddressBook.upcoming_body today) acc w))
    = true.
Proof.
  intros Hin Hu. induction xs as [ | x xs IH]; intros acc w.
  - destruct Hin.
  - rewrite (for_each_cons _ _ _ _ _ (upcoming_body_frame today)).
    destruct (fst (AddressBook.upcoming_body today x acc w)) as [acc' | e] eqn:Hx.
    + destruct Hin as [-> | Hin].
      * specialize (Hu acc w). rewrite Hx in Hu. discriminate.
      * apply IH. exact Hin.
    + eapply raises_of_class; [ reflexivity | ].
      eapply upcoming_body_only_ValueError; eauto.
Qed.

Lemma get_upcoming_birthdays_frame w :
  snd (AddressBook.get_upcoming_birthdays w) = w.
Proof.
  rewrite get_upcoming_birthdays_unfold.
  apply for_each_frame. intros x acc w'. apply upcoming_body_frame.
Qed.

Lemma get_upcoming_birthdays_pair w :
  AddressBook.get_upcoming_birthdays w
  = (fst (AddressBook.get_upcoming_birthdays w), w).
Proof.
  rewrite <- (get_upcoming_birthdays_frame w) at 3.
  apply surjective_pairing.
Qed.

Lemma get_upcoming_birthdays_only_ValueError w e :
  fst (AddressBook.get_upcoming_birthdays w) = Raise e -> fst e = ValueError.
Proof.
  rewrite get_upcoming_birthdays_unfold. apply upcoming_loop_only_ValueError.
Qed.

(** The function returns a list whenever every candidate is a date and no
    weekend candidate in the window sits too close to the end of its
    month. *)
Lemma get_upcoming_birthdays_returns w :
  valid_date (today w) = true ->
  (forall r b, In r (Dict.values (book w)) -> Record.birthday r = Some b ->
     exists c,
       datetime_date (year (today w)) (month b) (day b) = Ok c
       /\ (spec_in_window (today w) r = true ->
           day c + spec_weekend_shift (weekday c) <= days_in_month (year c) (month c))) ->
  exists l, fst (AddressBook.get_upcoming_birthdays w) = Ok l.
Proof.
  intros Htoday Hall. rewrite get_upcoming_birthdays_unfold.
  now apply upcoming_loop_returns.
Qed.

(** A weekend candidate in the window on the last day of its month makes
    the function raise: the day number is increased inside the month. *)
Lemma weekend_at_month_end_raises w r b c :
  valid_date (today w) = true ->
  In r (Dict.values (book w)) ->
  Record.birthday r = Some b ->
  datetime_date (year (today w)) (month b) (day b) = Ok c ->
  0 <= days_between c (today w) < 7 ->
  weekday c = 5 \/ weekday c = 6 ->
  day c = days_in_month (year c) (month c) ->
  raises ValueError (fst (AddressBook.get_upcoming_birthdays w)) = true.
Proof.
  intros Htoday Hin Hb Hc Hwin Hwd Hlast. rewrite get_upcoming_birthdays_unfold.
  apply (upcoming_loop_raises _ _ r Hin). intros acc w'.
  rewrite (upcoming_body_result _ _ _ _ Htoday), Hb, Hc.
  replace ((0 <=? days_between c (today w)) && (days_between c (today w) <? 7))
    with true
    by (symmetry; apply andb_true_iff; rewrite Z.leb_le, Z.ltb_lt; lia).
  assert (Hbad : valid_ymd (year c) (month c) (day c + spec_weekend_shift (weekday c))
                 = false).
  { unfold valid_ymd. rewrite Hlast.
    replace (days_in_month (year c) (month c) + spec_weekend_shift (weekday c)
             <=? days_in_month (year c) (month c)) with false.
    - now rewrite andb_false_r.
    - symmetry. apply Z.leb_gt. unfold spec_weekend_shift.
      destruct Hwd as [-> | ->]; simpl; lia. }
  apply datetime_date_invalid in Hbad.
  destruct (datetime_date (year c) (month c) _); [ discriminate | exact Hbad ].
Qed.

(** ** Strings and the command line *)

Lemma string_app_assoc (a b c : string) : ((a ++ b) ++ c = a ++ (b ++ c))%string.
Proof. induction a as [ | x a IH]; simpl; [ reflexivity | now rewrite IH ]. Qed.

Lemma string_app_nil_r (a : string) : (a ++ EmptyString = a)%string.
Proof. induction a as [ | x a IH]; simpl; [ reflexivity | now rewrite IH ]. Qed.

#[local] Arguments PyStr.isspace_char : simpl never.
#[local] Arguments PyStr.isdigit_char : simpl never.

Lemma split_from_word (word : string) :
  no_space word = true ->
  forall cur rest,
    PyStr.split_from (word ++ rest) (Some cur)
    = PyStr.split_from rest (Some (cur ++ word)%string).
Proof.
  induction word as [ | c word IH]; intros Hword cur rest; simpl.
  - now rewrite string_app_nil_r.
  - change (negb (PyStr.isspace_char c) && no_space word = true) in Hword.
    apply andb_true_iff in Hword as [Hc Hword].
    apply negb_true_iff in Hc. rewrite Hc, (IH Hword), string_app_assoc.
    reflexivity.
Qed.

Lemma split_from_first_word (word rest : string) :
  PyStr.is_empty word = false -> no_space word = true ->
  PyStr.split_from (word ++ rest) None = PyStr.split_from rest (Some word).
Proof.
  destruct word as [ | c word]; [ discriminate | ]. intros _ Hword.
  change (negb (PyStr.isspace_char c) && no_space word = true) in Hword.
  apply andb_true_iff in Hword as [Hc Hword].
  apply negb_true_iff in Hc. cbn [append PyStr.split_from]. rewrite Hc.
  now rewrite (split_from_word word Hword).
Qed.

Lemma isdigit_char_no_space c :
  PyStr.isdigit_char c = true -> PyStr.isspace_char c = false.
Proof.
  unfold PyStr.isdigit_char, PyStr.isspace_char. cbv zeta.
  generalize (PyStr.code c). intros n H.
  rewrite !orb_true_iff, andb_true_iff, !Z.leb_le, !Z.eqb_eq in H.
  rewrite !orb_false_iff, !andb_false_iff, !Z.leb_gt, !Z.eqb_neq. lia.
Qed.

Lemma isdigit_no_space s : PyStr.isdigit s = true -> no_space s = true.
Proof.
  unfold PyStr.isdigit. intros H. apply andb_true_iff in H as [_ H].
  unfold no_space.
  induction s as [ | c s IH]; simpl in *; [ reflexivity | ].
  apply andb_true_iff in H as [Hc Hs].
  now rewrite (isdigit_char_no_space c Hc), (IH Hs).
Qed.

Lemma Phone_Ok (phone stored : string) :
  Phone phone = Ok stored <->
  stored = phone /\ PyStr.isdigit phone = true /\ PyStr.len phone = 10.
Proof.
  unfold Phone.
  destruct (PyStr.isdigit phone); simpl.
  - destruct (Z.eqb_spec (PyStr.len phone) 10); simpl.
    + split; [ intros [= <-]; auto | intros (-> & _); reflexivity ].
    + split; [ discriminate | intros (_ & _ & H); contradiction ].
  - split; [ discriminate | intros (_ & H & _); discriminate ].
Qed.

Lemma parse_add_command (name phone : string) :
  PyStr.is_empty name = false -> no_space name = true ->
  PyStr.isdigit phone = true ->
  parse_input ("add " ++ name ++ " " ++ phone) = Ok ("add"%string, [name; phone]).
Proof.
  intros Hne Hname Hphone. unfold parse_input, PyStr.split. simpl.
  rewrite (split_from_first_word name _ Hne Hname). simpl.
  assert (Hp : PyStr.is_empty phone = false).
  { unfold PyStr.isdigit in Hphone. apply andb_true_iff in Hphone as [H _].
    now apply negb_true_iff in H. }
  rewrite <- (string_app_nil_r phone) at 1.
  rewrite (split_from_first_word phone _ Hp (isdigit_no_space _ Hphone)).
  reflexivity.
Qed.

(** ** Dictionaries *)

Lemma dict_get_set_same {V : Type} k (v : V) d :
  Dict.get k (Dict.set k v d) = Some v.
Proof.
  induction d as [ | [k' v'] d IH]; simpl.
  - now rewrite String.eqb_refl.
  - destruct (String.eqb k' k) eqn:E; simpl; now rewrite E.
Qed.

Lemma dict_get_set_other {V : Type} k k0 (v : V) d :
  k0 <> k -> Dict.get k0 (Dict.set k v d) = Dict.get k0 d.
Proof.
  intros Hne. induction d as [ | [k' v'] d IH]; simpl.
  - destruct (String.eqb_spec k k0); [ congruence | reflexivity ].
  - destruct (String.eqb_spec k' k); simpl.
    + subst k'. destruct (String.eqb_spec k k0); [ congruence | reflexivity ].
    + now rewrite IH.
Qed.

Lemma dict_keys_set_present {V : Type} k (v old : V) d :
  Dict.get k d = Some old -> Dict.keys (Dict.set k v d) = Dict.keys d.
Proof.
  unfold Dict.keys.
  induction d as [ | [k' v'] d IH]; simpl; [ discriminate | ].
  destruct (String.eqb k' k); simpl; [ reflexivity | ].
  intros H. now rewrite IH.
Qed.

(** ** Phone numbers *)

Example phone_five_digits_rejected :
  Phone "12345" = Raise (ValueError, "Phone number must have 10 digits."%string).
Proof. reflexivity. Qed.

Example phone_ten_digits_accepted : Phone "1234567890" = Ok "1234567890"%string.
Proof. reflexivity. Qed.

Lemma Phone_accepted (phone : string) :
  Phone phone = Ok phone <-> phone_accepted phone = true.
Proof.
  rewrite Phone_Ok. unfold phone_accepted.
  rewrite andb_true_iff, Z.eqb_eq. tauto.
Qed.

Lemma Phone_rejected (phone : string) :
  phone_accepted phone = false -> raises ValueError (Phone phone) = true.
Proof.
  unfold phone_accepted, Phone. intros H.
  apply andb_false_iff in H as [-> | ->]; simpl; [ reflexivity | ].
  now rewrite orb_true_r.
Qed.

(** On ASCII input the check of the code is the check for ten decimal
    digits. *)
Lemma isdigit_char_ascii c :
  (PyStr.code c <? 128) = true -> PyStr.isdigit_char c = PyStr.isdecimal_char c.
Proof.
  unfold PyStr.isdigit_char, PyStr.isdecimal_char. cbv zeta.
  generalize (PyStr.code c). intros n H. apply Z.ltb_lt in H.
  replace (n =? 178) with false by (symmetry; apply Z.eqb_neq; lia).
  replace (n =? 179) with false by (symmetry; apply Z.eqb_neq; lia).
  replace (n =? 185) with false by (symmetry; apply Z.eqb_neq; lia).
  now rewrite !orb_false_r.
Qed.

Lemma phone_accepted_ascii (phone : string) :
  is_ascii phone = true ->
  phone_accepted phone = PyStr.ten_decimal_digits phone.
Proof.
  intros Hascii. unfold phone_accepted, PyStr.ten_decimal_digits, PyStr.isdigit.
  assert (Hall : PyStr.all_chars PyStr.isdigit_char phone
                 = PyStr.all_chars PyStr.isdecimal_char phone).
  { unfold is_ascii in Hascii.
    induction phone as [ | c s IH]; simpl in *; [ reflexivity | ].
    apply andb_true_iff in Hascii as [Hc Hs].
    now rewrite (isdigit_char_ascii c Hc), (IH Hs). }
  rewrite Hall. destruct phone as [ | c s]; simpl; [ | reflexivity ].
  reflexivity.
Qed.

(** [add_phone] and [edit_phone] store only what the check accepts. *)
Lemma add_phone_keeps_accepted phone r r' :
  Forall (fun p => phone_accepted p = true) (Record.phones r) ->
  Record.add_phone phone r = Ok r' ->
  Forall (fun p => phone_accepted p = true) (Record.phones r').
Proof.
  intros Hall. unfold Record.add_phone, result_bind.
  destruct (Phone phone) as [p | e] eqn:Hp; [ | discriminate ].
  intros [= <-]. simpl. apply Forall_app. split; [ exact Hall | ].
  constructor; [ | constructor ].
  apply Phone_Ok in Hp as (-> & Hd & Hl).
  unfold phone_accepted. rewrite Hd, Hl. reflexivity.
Qed.

Lemma edit_phone_keeps_accepted old_phone new_phone r r' :
  Forall (fun p => phone_accepted p = true) (Record.phones r) ->
  Record.edit_phone old_phone new_phone r = Ok r' ->
  Forall (fun p => phone_accepted p = true) (Record.phones r').
Proof.
  intros Hall. unfold Record.edit_phone.
  destruct (negb (existsb _ _)); [ discriminate | ].
  destruct (PyStr.isdigit new_phone) eqn:Hd; simpl; [ | discriminate ].
  destruct (PyStr.len new_phone =? 10) eqn:Hl; simpl; [ | discriminate ].
  intros [= <-]. simpl. apply Forall_map.
  eapply Forall_impl; [ | exact Hall ]. intros p Hp. simpl.
  destruct (String.eqb p old_phone); [ | exact Hp ].
  unfold phone_accepted. now rewrite Hd, Hl.
Qed.

(** ** The decorator *)

(** A decorated handler never raises. *)
Lemma input_error_never_raises (func : M string) w :
  exists message, fst (input_error func w) = Ok message.
Proof.
  unfold input_error.
  destruct (func w) as [[s | [[] msg]] w']; simpl; eauto.
Qed.

Lemma add_birthday_never_raises args w :
  exists message, fst (add_birthday args w) = Ok message.
Proof. apply input_error_never_raises. Qed.

Lemma show_birthday_never_raises args w :
  exists message, fst (show_birthday args w) = Ok message.
Proof. apply input_error_never_raises. Qed.

Lemma birthdays_never_raises args w :
  exists message, fst (birthdays args w) = Ok message.
Proof. apply input_error_never_raises. Qed.

(** The other branches of [main] run outside the decorator: an empty
    line, and a phone the check rejects, end the iteration with the
    exception. *)
Example empty_line_raises w :
  raises ValueError (fst (main_iteration EmptyString w)) = true
  /\ snd (main_iteration EmptyString w) = w.
Proof. split; reflexivity. Qed.

Example change_to_short_phone_raises :
  fst (main_iteration "change Anna 12" spec_scenario)
  = Raise (ValueError, "New phone number must be a 10-digit number."%string).
Proof. reflexivity. Qed.

Example birthdays_two_upcoming :
  birthdays [] two_upcoming
  = (Ok "The congratulation date for Anna is 11.06.2024"%string,
     mkWorld (book two_upcoming) ["Upcoming birthdays:"%string] (today two_upcoming))
  /\ fst (AddressBook.get_upcoming_birthdays two_upcoming)
     = Ok [mk_entry "Anna" "11.06.2024"; mk_entry "Dan" "13.06.2024"].
Proof. split; reflexivity. Qed.

(** * The claims *)

(** ** Upcoming birthdays *)

(** C1.  The weekend roll-forward does not cross the end of a month: on
    Monday 2024-08-26 a birthday on Saturday 31 August lies five days
    ahead, and [get_upcoming_birthdays] raises [ValueError] for day 33 of
    August instead of giving 2 September; on Thursday 2023-12-28 a
    birthday on Sunday 31 December raises instead of giving 1 January.
    The [birthdays] command then answers with the decorator's message. *)
Theorem weekend_shift_fails_at_month_end :
  (weekday (mkdate 2024 8 31) = 5
   /\ days_between (mkdate 2024 8 31) (today month_end_saturday) = 5
   /\ day (mkdate 2024 8 31) = days_in_month 2024 8
   /\ raises ValueError (fst (AddressBook.get_upcoming_birthdays month_end_saturday))
      = true
   /\ birthdays [] month_end_saturday
      = (Ok "Give me name and phone please."%string, month_end_saturday))
  /\ (weekday (mkdate 2023 12 31) = 6
      /\ days_between (mkdate 2023 12 31) (today year_end_sunday) = 3
      /\ day (mkdate 2023 12 31) = days_in_month 2023 12
      /\ raises ValueError (fst (AddressBook.get_upcoming_birthdays year_end_sunday))
         = true
      /\ birthdays [] year_end_sunday
         = (Ok "Give me name and phone please."%string, year_end_sunday)).
Proof. repeat split; reflexivity. Qed.

(** C3, as stated, fails where the call raises: on 2023-03-01 Sara's
    candidate 2023-03-04 lies three days ahead, inside the window, but
    the birthday on 29 February beside it makes [get_upcoming_birthdays]
    raise, so no list is returned and Sara is in none. *)
Lemma window_record_not_included_when_call_raises :
  In sara (Dict.values (book leap_neighbour))
  /\ datetime_date (year (today leap_neighbour)) 3 4 = Ok (mkdate 2023 3 4)
  /\ days_between (mkdate 2023 3 4) (today leap_neighbour) = 3
  /\ ~ (exists l,
          fst (AddressBook.get_upcoming_birthdays leap_neighbour) = Ok l
          /\ In (Record.name sara) (map entry_name l)).
Proof.
  split; [ now left | ]. split; [ reflexivity | ]. split; [ reflexivity | ].
  intros (l & Hrun & _). discriminate Hrun.
Qed.

(** C3.  When [get_upcoming_birthdays] returns a list, its entries are,
    in order, the records that have a birthday whose candidate
    [date(today.year, birthday.month, birthday.day)] satisfies
    [0 <= (candidate - today).days < 7]; every stored birthday has such a
    candidate, a candidate before today is left out, one seven or more
    days ahead is left out, and one equal to today is taken. *)
Theorem upcoming_window_selection w l :
  valid_date (today w) = true ->
  fst (AddressBook.get_upcoming_birthdays w) = Ok l ->
  map entry_name l
  = map Record.name (filter (spec_in_window (today w)) (Dict.values (book w)))
  /\ forall r b,
       In r (Dict.values (book w)) -> Record.birthday r = Some b ->
       exists candidate,
         datetime_date (year (today w)) (month b) (day b) = Ok candidate
         /\ (spec_in_window (today w) r = true
             <-> 0 <= days_between candidate (today w) < 7)
         /\ (date_ltb candidate (today w) = true ->
             spec_in_window (today w) r = false)
         /\ (7 <= days_between candidate (today w) ->
             spec_in_window (today w) r = false)
         /\ (candidate = today w -> spec_in_window (today w) r = true).
Proof.
  intros Htoday Hrun. rewrite get_upcoming_birthdays_unfold in Hrun. split.
  - apply (upcoming_loop_entries _ _ Htoday) in Hrun as (l' & -> & Hall).
    simpl app.
    induction Hall as [ | e r es rs (b & c & d & _ & _ & Hname & _) _ IH].
    + reflexivity.
    + simpl. now rewrite IH, Hname.
  - intros r b Hin Hb.
    destruct (upcoming_loop_candidates _ _ Htoday _ _ _ Hrun r b Hin Hb) as [c Hc].
    exists c. split; [ exact Hc | ].
    assert (Hwin : spec_in_window (today w) r
                   = (0 <=? days_between c (today w))
                     && (days_between c (today w) <? 7)).
    { unfold spec_in_window. now rewrite Hb, Hc. }
    rewrite Hwin, andb_true_iff, Z.leb_le, Z.ltb_lt.
    apply datetime_date_Ok in Hc as [Hc Hvalid].
    assert (Hord : date_ltb c (today w) = (toordinal c <? toordinal (today w))).
    { apply same_year_order; subst c; auto. }
    split; [ tauto | ]. split; [ | split ].
    + intros Hlt. rewrite Hord in Hlt. apply Z.ltb_lt in Hlt.
      apply andb_false_iff. left. apply Z.leb_gt. unfold days_between. lia.
    + intros Hfar. apply andb_false_iff. right. apply Z.ltb_ge. lia.
    + intros Heq. rewrite Heq. unfold days_between. lia.
Qed.

Lemma upcoming_window_selection_witness :
  map entry_name [mk_entry "Anna" "17.06.2024"]
  = map Record.name
      (filter (spec_in_window (today spec_scenario))
         (Dict.values (book spec_scenario)))
  /\ forall r b,
       In r (Dict.values (book spec_scenario)) -> Record.birthday r = Some b ->
       exists candidate,
         datetime_date (year (today spec_scenario)) (month b) (day b)
         = Ok candidate
         /\ (spec_in_window (today spec_scenario) r = true
             <-> 0 <= days_between candidate (today spec_scenario) < 7)
         /\ (date_ltb candidate (today spec_scenario) = true ->
             spec_in_window (today spec_scenario) r = false)
         /\ (7 <= days_between candidate (today spec_scenario) ->
             spec_in_window (today spec_scenario) r = false)
         /\ (candidate = today spec_scenario ->
             spec_in_window (today spec_scenario) r = true).
Proof.
  apply (upcoming_window_selection spec_scenario [mk_entry "Anna" "17.06.2024"]);
    reflexivity.
Defined.

(** C4, as stated, fails where the call raises: on 2023-03-01 Sara's
    candidate 2023-03-04 is a Saturday inside the window, but the
    birthday on 29 February beside it makes [get_upcoming_birthdays]
    raise, so no entry with Monday 6 March, nor any other entry, is
    emitted for Sara. *)
Lemma saturday_record_gets_no_date_when_call_raises :
  In sara (Dict.values (book leap_neighbour))
  /\ spec_in_window (today leap_neighbour) sara = true
  /\ weekday (mkdate 2023 3 4) = 5
  /\ ~ (exists l e,
          fst (AddressBook.get_upcoming_birthdays leap_neighbour) = Ok l
          /\ In e l /\ entry_name e = Record.name sara).
Proof.
  split; [ now left | ]. split; [ reflexivity | ]. split; [ reflexivity | ].
  intros (l & e & Hrun & _). discriminate Hrun.
Qed.

(** C4.  When [get_upcoming_birthdays] returns a list, the entry of every
    record in the window carries the record's name and, formatted as
    DD.MM.YYYY, the date two days after the candidate when the candidate
    is a Saturday, one day after it when it is a Sunday, and the
    candidate itself on any other weekday. *)
Theorem upcoming_weekend_roll_forward w l :
  valid_date (today w) = true ->
  fst (AddressBook.get_upcoming_birthdays w) = Ok l ->
  Forall2 (congratulates (today w)) l
    (filter (spec_in_window (today w)) (Dict.values (book w))).
Proof.
  intros Htoday Hrun. rewrite get_upcoming_birthdays_unfold in Hrun.
  apply (upcoming_loop_entries _ _ Htoday) in Hrun as (l' & -> & Hall).
  exact Hall.
Qed.

Lemma upcoming_weekend_roll_forward_witness :
  Forall2 (congratulates (today spec_scenario)) [mk_entry "Anna" "17.06.2024"]
    (filter (spec_in_window (today spec_scenario))
       (Dict.values (book spec_scenario))).
Proof.
  apply (upcoming_weekend_roll_forward spec_scenario); reflexivity.
Defined.

(** C5.  With a record whose birthday is 29 February in the book and a
    current year that is not a leap year, [get_upcoming_birthdays] raises
    [ValueError]; it returns no list. *)
Theorem feb29_nonleap_raises w r b :
  In r (Dict.values (book w)) ->
  Record.birthday r = Some b ->
  month b = 2 -> day b = 29 ->
  is_leap (year (today w)) = false ->
  raises ValueError (fst (AddressBook.get_upcoming_birthdays w)) = true.
Proof.
  intros Hin Hb Hm Hd Hleap. rewrite get_upcoming_birthdays_unfold.
  apply (upcoming_loop_raises _ _ r Hin). intros acc w'.
  unfold AddressBook.upcoming_body, bind, lift. rewrite Hb, Hm, Hd.
  assert (Hbad : valid_ymd (year (today w)) 2 29 = false).
  { unfold valid_ymd, days_in_month. rewrite Hleap. simpl.
    now rewrite !andb_false_r. }
  apply datetime_date_invalid in Hbad.
  destruct (datetime_date (year (today w)) 2 29); [ discriminate | exact Hbad ].
Qed.

Lemma feb29_nonleap_raises_witness :
  raises ValueError (fst (AddressBook.get_upcoming_birthdays nonleap_scenario))
  = true.
Proof.
  apply (feb29_nonleap_raises nonleap_scenario leap_day_record (mkdate 2000 2 29)).
  - simpl. left. reflexivity.
  - reflexivity.
  - reflexivity.
  - reflexivity.
  - reflexivity.
Defined.

(** C7.  [get_upcoming_birthdays] leaves the world as it found it: the
    book with every record's name, phones and birthday, and the output,
    are the same after the call, whether it returned or raised. *)
Theorem get_upcoming_birthdays_pure_read w :
  snd (AddressBook.get_upcoming_birthdays w) = w
  /\ book (snd (AddressBook.get_upcoming_birthdays w)) = book w.
Proof.
  pose proof (get_upcoming_birthdays_frame w) as H. split; [ exact H | ].
  now rewrite H.
Qed.

(** The answer of the [birthdays] handler, by the result of
    [get_upcoming_birthdays]. *)
Lemma birthdays_by_result (args : list string) w :
  match fst (AddressBook.get_upcoming_birthdays w) with
  | Ok (first :: _) =>
      birthdays args w
      = (Ok ("The congratulation date for " ++ entry_name first
               ++ " is " ++ congratulation_date first)%string,
         mkWorld (book w) (stdout w ++ ["Upcoming birthdays:"%string]) (today w))
  | Ok [] => birthdays args w = (Ok "No upcoming birthdays."%string, w)
  | Raise _ =>
      birthdays args w = (Ok "Give me name and phone please."%string, w)
  end
  /\ (fst (birthdays args w) = Ok "No upcoming birthdays."%string
      <-> fst (AddressBook.get_upcoming_birthdays w) = Ok []).
Proof.
  unfold birthdays, input_error, bind.
  pose proof (get_upcoming_birthdays_only_ValueError w) as Hcls.
  rewrite (get_upcoming_birthdays_pair w).
  destruct (fst (AddressBook.get_upcoming_birthdays w))
    as [[ | first rest] | [c msg]]; simpl.
  - split; [ reflexivity | tauto ].
  - split; [ reflexivity | ]. split; discriminate.
  - specialize (Hcls _ eq_refl). simpl in Hcls. subst c.
    split; [ reflexivity | ]. split; discriminate.
Qed.

(** C9, as stated, fails where the call raises: on 2023-03-01 Sara
    qualifies, three days ahead, but the birthday on 29 February beside
    her makes [get_upcoming_birthdays] raise, and the handler answers
    with the decorator's message for [ValueError], which describes no
    entry. *)
Lemma qualifying_record_not_reported_when_call_raises :
  In sara (Dict.values (book leap_neighbour))
  /\ spec_in_window (today leap_neighbour) sara = true
  /\ raises ValueError (fst (AddressBook.get_upcoming_birthdays leap_neighbour))
     = true
  /\ birthdays [] leap_neighbour
     = (Ok "Give me name and phone please."%string, leap_neighbour).
Proof. repeat split; try reflexivity. now left. Qed.

(** C9.  When [get_upcoming_birthdays] returns a list and at least one
    record qualifies, the [birthdays] handler prints the heading and
    answers with one entry, that of the first qualifying record in the
    order of the book, however many qualify; when it returns and none
    qualifies the answer is "No upcoming birthdays.", and that answer
    is given only when none qualifies; when it raises the answer is the
    decorator's message for [ValueError]. *)
Theorem birthdays_reports_first_qualifying (args : list string) w :
  valid_date (today w) = true ->
  (forall l,
     fst (AddressBook.get_upcoming_birthdays w) = Ok l ->
     match filter (spec_in_window (today w)) (Dict.values (book w)) with
     | [] => birthdays args w = (Ok "No upcoming birthdays."%string, w)
     | first :: _ =>
         exists e,
           congratulates (today w) e first
           /\ birthdays args w
              = (Ok ("The congratulation date for " ++ Record.name first
                       ++ " is " ++ congratulation_date e)%string,
                 mkWorld (book w) (stdout w ++ ["Upcoming birthdays:"%string])
                   (today w))
     end)
  /\ (forall e,
        fst (AddressBook.get_upcoming_birthdays w) = Raise e ->
        birthdays args w = (Ok "Give me name and phone please."%string, w))
  /\ (fst (birthdays args w) = Ok "No upcoming birthdays."%string ->
      filter (spec_in_window (today w)) (Dict.values (book w)) = []).
Proof.
  intros Htoday.
  destruct (birthdays_by_result args w) as [Hcases Hnone].
  split; [ | split ].
  - intros l Hrun. rewrite Hrun in Hcases.
    rewrite get_upcoming_birthdays_unfold in Hrun.
    apply (upcoming_loop_entries _ _ Htoday) in Hrun as (l' & -> & Hall).
    simpl app in Hcases.
    destruct Hall as [ | e first es rest He Hrest].
    + exact Hcases.
    + exists e. split; [ exact He | ].
      destruct He as (b & c & d & _ & _ & Hname & _). now rewrite <- Hname.
  - intros e Hrun. now rewrite Hrun in Hcases.
  - intros Hanswer. apply Hnone in Hanswer.
    rewrite get_upcoming_birthdays_unfold in Hanswer.
    apply (upcoming_loop_entries _ _ Htoday) in Hanswer as (l' & Heq & Hall).
    simpl app in Heq. subst l'. now inversion Hall.
Qed.

Lemma birthdays_reports_first_qualifying_witness :
  (forall l,
     fst (AddressBook.get_upcoming_birthdays two_upcoming) = Ok l ->
     match filter (spec_in_window (today two_upcoming))
             (Dict.values (book two_upcoming)) with
     | [] => birthdays [] two_upcoming = (Ok "No upcoming birthdays."%string, two_upcoming)
     | first :: _ =>
         exists e,
           congratulates (today two_upcoming) e first
           /\ birthdays [] two_upcoming
              = (Ok ("The congratulation date for " ++ Record.name first
                       ++ " is " ++ congratulation_date e)%string,
                 mkWorld (book two_upcoming)
                   (stdout two_upcoming ++ ["Upcoming birthdays:"%string])
                   (today two_upcoming))
     end)
  /\ (forall e,
        fst (AddressBook.get_upcoming_birthdays two_upcoming) = Raise e ->
        birthdays [] two_upcoming
        = (Ok "Give me name and phone please."%string, two_upcoming))
  /\ (fst (birthdays [] two_upcoming) = Ok "No upcoming birthdays."%string ->
      filter (spec_in_window (today two_upcoming))
        (Dict.values (book two_upcoming)) = []).
Proof.
  apply (birthdays_reports_first_qualifying [] two_upcoming). reflexivity.
Defined.

(** ** The command loop *)

(** C2.  An error raised by the [add] command is not caught: on the line
    "add Bob 12345" the [ValueError] of [Phone] leaves the loop, whatever
    lines follow, and [main] ends with that exception without saving the
    book. *)
Theorem main_add_invalid_phone_uncaught :
  (forall rest w,
     main_loop ("add Bob 12345"%string :: rest) w
     = (Raise (ValueError, "Phone number must have 10 digits."%string),
        mkWorld (book w) (stdout w ++ ["Enter a command: "%string]) (today w)))
  /\ (forall (blob : Type) (pickle_dump : AddressBook.t -> blob)
        (pickle_load : blob -> result AddressBook.t) rest clock,
        main pickle_dump pickle_load ("add Bob 12345"%string :: rest) clock
          (fun _ => None)
        = (Raise (ValueError, "Phone number must have 10 digits."%string),
           ["Welcome to the assistant bot!"%string; "Enter a command: "%string],
           fun _ => None)).
Proof. split; intros; reflexivity. Qed.

(** C10.  When the book holds a record under [name], the command
    "add name phone" with a phone the check accepts puts a fresh record
    with that one phone and no birthday in its place: the book maps
    [name] to the fresh record, its keys and all other records are as
    before; [add_record] stores whatever record it is given under the
    record's name. *)
Theorem add_replaces_existing_record w name phone old :
  Dict.get name (book w) = Some old ->
  PyStr.is_empty name = false ->
  no_space name = true ->
  Phone phone = Ok phone ->
  let fresh := Record.mk name [phone] None in
  main_iteration ("add " ++ name ++ " " ++ phone) w
  = (Ok false,
     mkWorld (Dict.set name fresh (book w))
       (stdout w ++ [("Added new contact: " ++ name ++ " - " ++ phone)%string])
       (today w))
  /\ Dict.get name (Dict.set name fresh (book w)) = Some fresh
  /\ Dict.keys (Dict.set name fresh (book w)) = Dict.keys (book w)
  /\ (forall other, other <> name ->
        Dict.get other (Dict.set name fresh (book w)) = Dict.get other (book w))
  /\ (forall record, Record.name record = name ->
        Dict.get name (book (snd (AddressBook.add_record record w)))
        = Some record).
Proof.
  intros Hold Hne Hname Hphone fresh.
  pose proof Hphone as Hp. apply Phone_Ok in Hp as (_ & Hdigits & Hlen).
  split; [ | split; [ | split; [ | split ] ] ].
  - unfold main_iteration, bind, lift.
    rewrite (parse_add_command name phone Hne Hname Hdigits). simpl.
    unfold Record.init, Name. rewrite Hne. simpl.
    unfold Record.add_phone. rewrite Hphone. reflexivity.
  - apply dict_get_set_same.
  - eapply dict_keys_set_present; eauto.
  - intros other Hother. now apply dict_get_set_other.
  - intros record <-. simpl. apply dict_get_set_same.
Qed.

Lemma add_replaces_existing_record_witness :
  let fresh := Record.mk "Anna" ["0987654321"%string] None in
  main_iteration "add Anna 0987654321" spec_scenario
  = (Ok false,
     mkWorld (Dict.set "Anna" fresh (book spec_scenario))
       ["Added new contact: Anna - 0987654321"%string] (today spec_scenario))
  /\ Dict.get "Anna" (Dict.set "Anna" fresh (book spec_scenario)) = Some fresh
  /\ Dict.keys (Dict.set "Anna" fresh (book spec_scenario))
     = Dict.keys (book spec_scenario)
  /\ (forall other, other <> "Anna"%string ->
        Dict.get other (Dict.set "Anna" fresh (book spec_scenario))
        = Dict.get other (book spec_scenario))
  /\ (forall record, Record.name record = "Anna"%string ->
        Dict.get "Anna" (book (snd (AddressBook.add_record record spec_scenario)))
        = Some record).
Proof.
  apply (add_replaces_existing_record spec_scenario "Anna" "0987654321"
           (record_with "Anna" (mkdate 1990 6 15)));
    reflexivity.
Defined.

(** ** Phone numbers *)

(** C6.  [Phone] accepts a string that is not ten decimal digits: ten
    times the superscript two passes [isdigit] and has length 10, so the
    constructor returns it and the [add] command stores it in the book. *)
Theorem phone_accepts_superscript_digits :
  Phone superscript_twos = Ok superscript_twos
  /\ PyStr.ten_decimal_digits superscript_twos = false
  /\ forall w,
       book (snd (main_iteration ("add Bob " ++ superscript_twos) w))
       = Dict.set "Bob" (Record.mk "Bob" [superscript_twos] None) (book w).
Proof. split; [ | split ]; intros; reflexivity. Qed.

(** ** Persistence *)

(** C8.  With a serialisation that reads back what it wrote, loading the
    file [save_data] has written gives the saved book: the same records
    under the same names, in the same order, each with its name, phones
    and birthday.  In particular the file a run of [main] leaves behind
    when it ends normally loads to the book that run ended with. *)
Theorem save_load_roundtrip (blob : Type) (pickle_dump : AddressBook.t -> blob)
    (pickle_load : blob -> result AddressBook.t) :
  (forall b, pickle_load (pickle_dump b) = Ok b) ->
  (forall (saved : AddressBook.t) (filename : string) (fs : FileSystem blob),
     load_data pickle_load filename (save_data pickle_dump saved filename fs)
     = Ok saved)
  /\ (forall stdin clock (fs fs' : FileSystem blob) printed,
        main pickle_dump pickle_load stdin clock fs = (Ok tt, printed, fs') ->
        exists loaded final,
          load_data pickle_load default_filename fs = Ok loaded
          /\ (print "Welcome to the assistant bot!" ;; main_loop stdin)
               (mkWorld loaded [] clock) = (Ok tt, final)
          /\ load_data pickle_load default_filename fs' = Ok (book final)).
Proof.
  intros Hpickle.
  assert (Hround : forall saved filename (fs : FileSystem blob),
            load_data pickle_load filename
              (save_data pickle_dump saved filename fs) = Ok saved).
  { intros saved filename fs. unfold load_data, save_data.
    rewrite String.eqb_refl. apply Hpickle. }
  split; [ exact Hround | ].
  intros stdin clock fs fs' printed. unfold main.
  destruct (load_data pickle_load default_filename fs) as [loaded | e];
    [ | discriminate ].
  destruct ((print "Welcome to the assistant bot!" ;; main_loop stdin)
              (mkWorld loaded [] clock)) as [[[] | e] final] eqn:Hrun;
    [ | discriminate ].
  intros [= _ <-]. exists loaded, final.
  split; [ reflexivity | ]. split; [ exact Hrun | apply Hround ].
Qed.

Lemma save_load_roundtrip_witness :
  load_data (blob := AddressBook.t) Ok default_filename
    (save_data (fun b => b) (book spec_scenario) default_filename (fun _ => None))
  = Ok (book spec_scenario).
Proof.
  apply (save_load_roundtrip AddressBook.t (fun b => b) Ok).
  intros b. reflexivity.
Defined.

(** Without a file, [load_data] gives the empty book. *)
Lemma load_data_no_file (blob : Type) (pickle_load : blob -> result AddressBook.t)
    (filename : string) :
  load_data pickle_load filename (fun _ => None) = Ok AddressBook.empty.
Proof. reflexivity. Qed.

(** * Further properties of the program *)

(** ** Command lines *)

Lemma is_word_spec s :
  is_word s = true <-> PyStr.is_empty s = false /\ no_space s = true.
Proof. unfold is_word. now rewrite andb_true_iff, negb_true_iff. Qed.

Lemma split_from_space (rest cur : string) :
  PyStr.split_from (" " ++ rest) (Some cur) = cur :: PyStr.split_from rest None.
Proof. reflexivity. Qed.

Lemma split_join_from (words : list string) :
  Forall (fun t => is_word t = true) words ->
  PyStr.split_from (PyStr.join " " words) None = words.
Proof.
  induction words as [ | t words IH]; intros Hall; [ reflexivity | ].
  inversion Hall as [ | ? ? Ht Hrest]; subst.
  apply is_word_spec in Ht as [Hne Hns].
  destruct words as [ | t2 words].
  - simpl. rewrite <- (string_app_nil_r t) at 1.
    now rewrite (split_from_first_word t _ Hne Hns).
  - change (PyStr.join " " (t :: t2 :: words))
      with (t ++ " " ++ PyStr.join " " (t2 :: words))%string.
    rewrite (split_from_first_word t _ Hne Hns), split_from_space.
    now rewrite (IH Hrest).
Qed.

Lemma rstrip_word s : no_space s = true -> PyStr.rstrip s = s.
Proof.
  unfold no_space. induction s as [ | c s IH]; simpl; [ reflexivity | ].
  intros H. apply andb_true_iff in H as [Hc Hs]. apply negb_true_iff in Hc.
  rewrite (IH Hs), Hc, andb_false_r. reflexivity.
Qed.

Lemma strip_word s : no_space s = true -> PyStr.strip s = s.
Proof.
  intros H. unfold PyStr.strip.
  assert (Hl : PyStr.lstrip s = s).
  { destruct s as [ | c s]; [ reflexivity | ]. simpl.
    unfold no_space in H. simpl in H. apply andb_true_iff in H as [Hc _].
    apply negb_true_iff in Hc. now rewrite Hc. }
  rewrite Hl. now apply rstrip_word.
Qed.

Lemma split_blank s :
  PyStr.all_chars PyStr.isspace_char s = true ->
  PyStr.split_from s None = [].
Proof.
  induction s as [ | c s IH]; simpl; [ reflexivity | ].
  intros H. apply andb_true_iff in H as [Hc Hs]. rewrite Hc. now apply IH.
Qed.

Lemma no_space_snoc w c :
  no_space w = true -> PyStr.isspace_char c = false ->
  no_space (w ++ String c EmptyString) = true.
Proof.
  unfold no_space. induction w as [ | x w IH]; simpl; intros Hw Hc.
  - now rewrite Hc.
  - apply andb_true_iff in Hw as [Hx Hw]. now rewrite Hx, IH.
Qed.

Lemma is_word_snoc w c :
  no_space w = true -> PyStr.isspace_char c = false ->
  is_word (w ++ String c EmptyString) = true.
Proof.
  intros Hw Hc. apply is_word_spec. split; [ | now apply no_space_snoc ].
  destruct w; reflexivity.
Qed.

(** Every token [split] gives is a word. *)
Lemma split_from_words s :
  forall cur,
    match cur with
    | Some w => is_word w = true
    | None => True
    end ->
    Forall (fun t => is_word t = true) (PyStr.split_from s cur).
Proof.
  induction s as [ | c s IH]; intros cur Hcur; simpl.
  - destruct cur; [ constructor; [ exact Hcur | constructor ] | constructor ].
  - destruct (PyStr.isspace_char c) eqn:Hc.
    + destruct cur; [ constructor; [ exact Hcur | ] | ]; now apply IH.
    + destruct cur as [w | ]; apply IH.
      * apply is_word_spec in Hcur as [_ Hns]. now apply is_word_snoc.
      * apply (is_word_snoc EmptyString c); [ reflexivity | exact Hc ].
Qed.

Lemma parse_input_words line command args :
  parse_input line = Ok (command, args) ->
  Forall (fun t => is_word t = true) args.
Proof.
  unfold parse_input, PyStr.split.
  pose proof (split_from_words line None I) as Hall.
  destruct (PyStr.split_from line None) as [ | cmd rest]; [ discriminate | ].
  intros [= _ <-]. now inversion Hall.
Qed.

Lemma parse_input_only_ValueError line e :
  parse_input line = Raise e -> fst e = ValueError.
Proof.
  unfold parse_input. destruct (PyStr.split line); [ | discriminate ].
  intros [= <-]. reflexivity.
Qed.

Lemma parse_tokens (cmd : string) (args : list string) :
  Forall (fun t => is_word t = true) (cmd :: args) ->
  parse_input (PyStr.join " " (cmd :: args)) = Ok (PyStr.lower cmd, args).
Proof.
  intros Hall. unfold parse_input, PyStr.split.
  rewrite (split_join_from _ Hall).
  inversion Hall as [ | ? ? Hcmd _]; subst.
  apply is_word_spec in Hcmd as [_ Hns]. now rewrite (strip_word _ Hns).
Qed.

Lemma phone_accepted_word phone : phone_accepted phone = true -> is_word phone = true.
Proof.
  unfold phone_accepted. intros H. apply andb_true_iff in H as [Hd _].
  apply is_word_spec. split; [ | now apply isdigit_no_space ].
  unfold PyStr.isdigit in Hd. apply andb_true_iff in Hd as [H _].
  now apply negb_true_iff in H.
Qed.

(** ** What a command does to the world *)

Lemma world_eta w : mkWorld (book w) (stdout w ++ [])%list (today w) = w.
Proof. destruct w. simpl. now rewrite app_nil_r. Qed.

Lemma for_each_print {A : Type} (f : A -> string) (xs : list A) w :
  for_each xs (fun x _ => print (f x)) tt w
  = (Ok tt, mkWorld (book w) (stdout w ++ map f xs)%list (today w)).
Proof.
  revert w. induction xs as [ | x xs IH]; intros w; simpl.
  - unfold ret. now rewrite world_eta.
  - unfold bind, print at 1. rewrite IH. simpl. now rewrite <- app_assoc.
Qed.

Lemma birthdays_effect args w :
  exists message outs,
    birthdays args w
    = (Ok message, mkWorld (book w) (stdout w ++ outs)%list (today w)).
Proof.
  unfold birthdays, input_error, bind.
  rewrite (get_upcoming_birthdays_pair w).
  destruct (fst (AddressBook.get_upcoming_birthdays w))
    as [[ | first rest] | [c msg]]; simpl.
  - exists "No upcoming birthdays."%string, []. now rewrite world_eta.
  - eexists _, ["Upcoming birthdays:"%string]. reflexivity.
  - destruct c; eexists _, []; now rewrite world_eta.
Qed.

Lemma show_birthday_effect args w :
  exists message, show_birthday args w = (Ok message, w).
Proof.
  unfold show_birthday, input_error, bind, lift, AddressBook.find, get_book, ret.
  destruct args as [ | name args]; simpl; [ eauto | ].
  destruct (Dict.get name (book w)) as [r | ]; [ | eauto ].
  destruct (Record.birthday r); eauto.
Qed.

Lemma Birthday_only_ValueError value e :
  Birthday value = Raise e ->
  e = (ValueError, "Invalid date format. Use DD.MM.YYYY"%string).
Proof.
  unfold Birthday.
  destruct (Strptime.strptime_dmY value) as [d | [c msg]] eqn:Hparse;
    [ discriminate | ].
  assert (Hc : c = ValueError).
  { unfold Strptime.strptime_dmY in Hparse.
    destruct (Strptime.day_directive value) as [[d rest] | ];
      [ | now injection Hparse as <- ].
    destruct (Strptime.month_directive rest) as [[m rest'] | ];
      [ | now injection Hparse as <- ].
    destruct (Strptime.year_directive rest') as [y | ];
      [ | now injection Hparse as <- ].
    now apply datetime_date_only_ValueError in Hparse. }
  subst c. now intros [= <-].
Qed.

Lemma Birthday_valid value d : Birthday value = Ok d -> valid_date d = true.
Proof.
  unfold Birthday.
  destruct (Strptime.strptime_dmY value) as [d' | [c msg]] eqn:Hparse.
  - intros [= <-]. unfold Strptime.strptime_dmY in Hparse.
    destruct (Strptime.day_directive value) as [[dd rest] | ]; [ | discriminate ].
    destruct (Strptime.month_directive rest) as [[m rest'] | ]; [ | discriminate ].
    destruct (Strptime.year_directive rest') as [y | ]; [ | discriminate ].
    apply datetime_date_Ok in Hparse as [-> Hvalid]. exact Hvalid.
  - destruct c; discriminate.
Qed.

Lemma add_birthday_effect args w :
  exists message,
    add_birthday args w = (Ok message, w)
    \/ exists name found birthday r,
         Dict.get name (book w) = Some found
         /\ Record.add_birthday birthday found = Ok r
         /\ args = [name; birthday]
         /\ add_birthday args w
            = (Ok message, mkWorld (Dict.set name r (book w)) (stdout w) (today w)).
Proof.
  unfold add_birthday, input_error, bind, lift.
  destruct args as [ | name [ | birthday [ | extra args]]]; simpl; eauto.
  unfold try_except_ValueError, bind, AddressBook.find, get_book, ret, lift.
  simpl.
  destruct (Dict.get name (book w)) as [found | ] eqn:Hfound; [ | eauto ].
  destruct (Record.add_birthday birthday found) as [r | e] eqn:Hadd.
  - simpl. eexists. right. exists name, found, birthday, r. auto.
  - unfold Record.add_birthday, result_bind in Hadd.
    destruct (Birthday birthday) eqn:HB; [ discriminate | ].
    injection Hadd as <-. apply Birthday_only_ValueError in HB. subst e0.
    simpl. eauto.
Qed.

Lemma len_is_not_2 (args : list string) :
  len_is_not args 2 = false -> exists a b, args = [a; b].
Proof.
  destruct args as [ | a [ | b [ | c args]]]; try discriminate. eauto.
Qed.

Lemma len_is_not_1 (args : list string) :
  len_is_not args 1 = false -> exists a, args = [a].
Proof.
  destruct args as [ | a [ | b args]]; try discriminate. eauto.
Qed.

Lemma main_iteration_effect line w :
  command_effect line w (fst (main_iteration line w)) (snd (main_iteration line w)).
Proof.
  unfold main_iteration, bind, lift.
  destruct (parse_input line) as [[command args] | e] eqn:Hparse.
  2: { simpl. apply effect_escape. left.
       eapply parse_input_only_ValueError; eauto. }
  destruct (String.eqb command "close" || String.eqb command "exit") eqn:Hstop.
  { simpl. apply effect_break. apply orb_true_iff in Hstop as [H | H];
      apply String.eqb_eq in H; subst command; [ left | right ]; now exists args. }
  destruct (String.eqb command "hello").
  { simpl. apply effect_output. }
  destruct (String.eqb command "add").
  { destruct (len_is_not args 2) eqn:Hlen; [ simpl; apply effect_output | ].
    apply len_is_not_2 in Hlen as (name & phone & ->). simpl.
    unfold Record.init, Name, result_bind.
    apply parse_input_words in Hparse.
    inversion Hparse as [ | ? ? Hword _]; subst.
    destruct (PyStr.is_empty name) eqn:Hname.
    - simpl. apply effect_escape. now left.
    - simpl. unfold Record.add_phone, result_bind. simpl.
      destruct (Phone phone) as [stored | e] eqn:Hphone.
      + simpl. apply Phone_Ok in Hphone as (-> & Hd & Hl).
        apply (effect_store line w name _ [_]).
        apply (stored_by_add w name _ phone); auto.
        unfold phone_accepted. rewrite Hd, Hl. reflexivity.
      + simpl. apply effect_escape. left.
        unfold Phone in Hphone.
        destruct (negb (PyStr.isdigit phone) || negb (PyStr.len phone =? 10));
          [ | discriminate ].
        now injection Hphone as <-. }
  destruct (String.eqb command "change").
  { destruct (len_is_not args 2) eqn:Hlen; [ simpl; apply effect_output | ].
    apply len_is_not_2 in Hlen as (name & new_phone & ->). simpl.
    destruct (Dict.get name (book w)) as [found | ] eqn:Hfound;
      [ | simpl; apply effect_output ].
    destruct (index0 (Record.phones found)) as [old_phone | e] eqn:Hold.
    - destruct (Record.edit_phone old_phone new_phone found) as [r | e] eqn:Hedit.
      + simpl. apply (effect_store line w name r [_]).
        eapply stored_by_change; eauto.
      + simpl. apply effect_escape. left.
        unfold Record.edit_phone in Hedit.
        destruct (negb (existsb _ _)); [ now injection Hedit as <- | ].
        destruct (negb (PyStr.isdigit new_phone) || negb (PyStr.len new_phone =? 10));
          [ now injection Hedit as <- | discriminate ].
    - simpl. apply effect_escape. right.
      destruct (Record.phones found) eqn:Hphones; [ | discriminate ].
      injection Hold as <-. split; [ reflexivity | eauto ]. }
  destruct (String.eqb command "phone").
  { destruct (len_is_not args 1) eqn:Hlen; [ simpl; apply effect_output | ].
    apply len_is_not_1 in Hlen as (name & ->). simpl.
    destruct (Dict.get name (book w)) as [found | ] eqn:Hfound;
      [ | simpl; apply effect_output ].
    destruct (index0 (Record.phones found)) as [phone | e] eqn:Hold.
    - simpl. apply effect_output.
    - simpl. apply effect_escape. right.
      destruct (Record.phones found) eqn:Hphones; [ | discriminate ].
      injection Hold as <-. split; [ reflexivity | eauto ]. }
  destruct (String.eqb command "all").
  { simpl. rewrite for_each_print. simpl. rewrite <- app_assoc. apply effect_output. }
  destruct (String.eqb command "add-birthday").
  { destruct (len_is_not args 2) eqn:Hlen; [ simpl; apply effect_output | ].
    destruct (add_birthday_effect args w)
      as (message & [Hrun | (name & found & birthday & r & Hf & Hadd & _ & Hrun)]);
      rewrite Hrun; simpl.
    - apply effect_output.
    - apply (effect_store line w name r [message]).
      eapply stored_by_add_birthday; eauto. }
  destruct (String.eqb command "show-birthday").
  { destruct (len_is_not args 1) eqn:Hlen; [ simpl; apply effect_output | ].
    destruct (show_birthday_effect args w) as (message & Hrun).
    rewrite Hrun. simpl. apply effect_output. }
  destruct (String.eqb command "birthdays").
  { destruct (birthdays_effect args w) as (message & outs & Hrun).
    rewrite Hrun. simpl. rewrite <- app_assoc. apply effect_output. }
  simpl. apply effect_output.
Qed.

Lemma book_ok_get data name r :
  book_ok data -> Dict.get name data = Some r -> record_ok name r = true.
Proof.
  unfold book_ok. induction data as [ | [k v] data IH]; simpl; [ discriminate | ].
  intros Hall Hget. inversion Hall as [ | ? ? Hkv Hrest]; subst.
  destruct (String.eqb_spec k name) as [-> | Hne].
  - injection Hget as <-. exact Hkv.
  - now apply IH.
Qed.

Lemma book_ok_set data name r :
  book_ok data -> record_ok name r = true -> book_ok (Dict.set name r data).
Proof.
  unfold book_ok. intros Hall Hr.
  induction data as [ | [k v] data IH]; simpl.
  - constructor; [ exact Hr | constructor ].
  - inversion Hall as [ | ? ? Hkv Hrest]; subst.
    destruct (String.eqb_spec k name) as [-> | Hne].
    + constructor; [ exact Hr | exact Hrest ].
    + constructor; [ exact Hkv | now apply IH ].
Qed.

Lemma record_ok_spec key r :
  record_ok key r = true <->
  Record.name r = key /\ is_word key = true
  /\ (exists p, Record.phones r = [p] /\ phone_accepted p = true)
  /\ (forall b, Record.birthday r = Some b -> valid_date b = true).
Proof.
  unfold record_ok. rewrite !andb_true_iff, String.eqb_eq.
  split.
  - intros [[[Hn He] Hp] Hb]. split; [ exact Hn | ]. split; [ exact He | ]. split.
    + destruct (Record.phones r) as [ | p [ | q rest]]; try discriminate. eauto.
    + intros b Heq. now rewrite Heq in Hb.
  - intros (Hn & He & (p & Hp & Hacc) & Hb). rewrite Hp.
    repeat split; auto.
    destruct (Record.birthday r) as [b | ]; auto.
Qed.

Lemma stored_by_ok w name r :
  book_ok (book w) -> stored_by w name r -> record_ok name r = true.
Proof.
  intros Hbook [phone -> Hname Hphone | found old_phone new_phone Hfound Hold Hedit
               | found birthday Hfound Hadd].
  - apply record_ok_spec. simpl. split; [ reflexivity | ]. split; [ exact Hname | ].
    split; [ eauto | discriminate ].
  - apply (book_ok_get _ _ _ Hbook) in Hfound.
    apply record_ok_spec in Hfound as (Hn & He & (p & Hp & Hacc) & Hb).
    rewrite Hp in Hold. injection Hold as <-.
    unfold Record.edit_phone in Hedit. rewrite Hp in Hedit. simpl in Hedit.
    rewrite String.eqb_refl in Hedit. simpl in Hedit.
    destruct (PyStr.isdigit new_phone) eqn:Hd; simpl in Hedit; [ | discriminate ].
    destruct (PyStr.len new_phone =? 10) eqn:Hl; simpl in Hedit; [ | discriminate ].
    injection Hedit as <-. apply record_ok_spec. simpl.
    split; [ exact Hn | ]. split; [ exact He | ]. split; [ | exact Hb ].
    exists new_phone. split; [ reflexivity | ].
    unfold phone_accepted. now rewrite Hd, Hl.
  - apply (book_ok_get _ _ _ Hbook) in Hfound.
    apply record_ok_spec in Hfound as (Hn & He & Hp & Hb).
    unfold Record.add_birthday, result_bind in Hadd.
    destruct (Birthday birthday) as [b | e] eqn:HB; [ | discriminate ].
    injection Hadd as <-. apply record_ok_spec. simpl.
    split; [ exact Hn | ]. split; [ exact He | ]. split; [ exact Hp | ].
    intros b' [= <-]. eapply Birthday_valid; eauto.
Qed.

Lemma main_iteration_run line w :
  exists r w', main_iteration line w = (r, w') /\ command_effect line w r w'.
Proof.
  exists (fst (main_iteration line w)), (snd (main_iteration line w)).
  split; [ apply surjective_pairing | apply main_iteration_effect ].
Qed.

Lemma main_iteration_keeps_book_ok line w :
  book_ok (book w) -> book_ok (book (snd (main_iteration line w))).
Proof.
  intros Hbook. destruct (main_iteration_run line w) as (r & w' & -> & Heff).
  simpl. destruct Heff as [e He | outs Hv | outs | name r outs Hst]; try exact Hbook.
  simpl. apply book_ok_set; [ exact Hbook | ]. eapply stored_by_ok; eauto.
Qed.

(** ** The command loop, line by line *)

(** X1.  [parse_input] gives back the tokens of a line written with
    single spaces: the first one in lower case as the command, the
    others untouched as its arguments. *)
Theorem parse_input_recovers_tokens (cmd : string) (args : list string) :
  Forall (fun t => is_word t = true) (cmd :: args) ->
  parse_input (PyStr.join " " (cmd :: args)) = Ok (PyStr.lower cmd, args).
Proof. apply parse_tokens. Qed.

Lemma parse_input_recovers_tokens_witness :
  parse_input (PyStr.join " " ["Add-Birthday"%string; "Bob"%string; "01.02.1990"%string])
  = Ok (PyStr.lower "Add-Birthday", ["Bob"%string; "01.02.1990"%string]).
Proof.
  apply (parse_input_recovers_tokens "Add-Birthday" ["Bob"%string; "01.02.1990"%string]).
  repeat constructor.
Defined.

(** X2.  A line of whitespace only, the empty line included, is not
    caught: the unpacking in [parse_input] raises [ValueError], the loop
    ends with it whatever lines follow, and nothing but the prompt has
    been written. *)
Theorem blank_line_ends_loop (line : string) (rest : list string) w :
  PyStr.all_chars PyStr.isspace_char line = true ->
  raises ValueError (fst (main_loop (line :: rest) w)) = true
  /\ snd (main_loop (line :: rest) w)
     = mkWorld (book w) (stdout w ++ ["Enter a command: "%string]) (today w).
Proof.
  intros Hblank. simpl. unfold bind at 1. unfold print at 1.
  unfold bind at 1. unfold main_iteration, bind, lift, parse_input, PyStr.split.
  rewrite (split_blank line Hblank). simpl. split; reflexivity.
Qed.

Lemma blank_line_ends_loop_witness :
  raises ValueError (fst (main_loop ["   "%string; "close"%string] spec_scenario)) = true
  /\ snd (main_loop ["   "%string; "close"%string] spec_scenario)
     = mkWorld (book spec_scenario)
         (stdout spec_scenario ++ ["Enter a command: "%string])
         (today spec_scenario).
Proof.
  apply (blank_line_ends_loop "   " ["close"%string] spec_scenario). reflexivity.
Defined.

Lemma main_iteration_break line w :
  verb_is line "close" \/ verb_is line "exit" ->
  main_iteration line w
  = (Ok true, mkWorld (book w) (stdout w ++ ["Good bye!"%string]) (today w)).
Proof.
  intros [[args Hparse] | [args Hparse]];
    unfold main_iteration, bind, lift; rewrite Hparse; reflexivity.
Qed.

(** X3.  A line whose first token is "close" or "exit" in any case ends
    the loop normally: the farewell is printed, further tokens on the
    line and all later lines are ignored, and the book is as it was. *)
Theorem close_or_exit_ends_loop (line : string) (rest : list string) w :
  verb_is line "close" \/ verb_is line "exit" ->
  main_loop (line :: rest) w
  = (Ok tt,
     mkWorld (book w)
       (stdout w ++ ["Enter a command: "%string; "Good bye!"%string]) (today w)).
Proof.
  intros Hverb. simpl. unfold bind at 1. unfold print at 1. unfold bind.
  rewrite (main_iteration_break _ _ Hverb). simpl.
  unfold ret. now rewrite <- app_assoc.
Qed.

Lemma close_or_exit_ends_loop_witness :
  main_loop ["EXIT now"%string; "add Bob 12345"%string] spec_scenario
  = (Ok tt,
     mkWorld (book spec_scenario)
       (stdout spec_scenario ++ ["Enter a command: "%string; "Good bye!"%string])
       (today spec_scenario)).
Proof.
  apply (close_or_exit_ends_loop "EXIT now" ["add Bob 12345"%string] spec_scenario).
  right. exists ["now"%string]. reflexivity.
Defined.

Lemma main_loop_returns_by_close (stdin : list string) :
  forall w,
    fst (main_loop stdin w) = Ok tt ->
    exists line, In line stdin /\ (verb_is line "close" \/ verb_is line "exit").
Proof.
  induction stdin as [ | line rest IH]; intros w; simpl.
  - discriminate.
  - unfold bind at 1. unfold print at 1. unfold bind.
    destruct (main_iteration_run line
                (mkWorld (book w) (stdout w ++ ["Enter a command: "%string])%list
                   (today w)))
      as (r & w' & -> & Heff).
    destruct Heff as [e He | outs Hv | outs | name r outs Hst]; simpl.
    + discriminate.
    + intros _. exists line. split; [ now left | exact Hv ].
    + intros Hrun. apply IH in Hrun as (l & Hin & Hv).
      exists l. split; [ now right | exact Hv ].
    + intros Hrun. apply IH in Hrun as (l & Hin & Hv).
      exists l. split; [ now right | exact Hv ].
Qed.

(** X4.  The loop returns normally only through a line whose first
    token is "close" or "exit": when the lines run out without one, or a
    command raises, it ends with an exception. *)
Theorem loop_returns_only_by_close (stdin : list string) w :
  fst (main_loop stdin w) = Ok tt ->
  exists line, In line stdin /\ (verb_is line "close" \/ verb_is line "exit").
Proof. apply main_loop_returns_by_close. Qed.

Lemma loop_returns_only_by_close_witness :
  exists line,
    In line ["hello"%string; "Close"%string]
    /\ (verb_is line "close" \/ verb_is line "exit").
Proof.
  apply (loop_returns_only_by_close ["hello"%string; "Close"%string] spec_scenario).
  reflexivity.
Defined.

(** X5.  A line whose first token is none of the ten commands prints
    "Invalid command." and the loop goes on with the book unchanged. *)
Theorem unknown_command_reported (line command : string) (args : list string) w :
  parse_input line = Ok (command, args) ->
  ~ In command
      ["close"; "exit"; "hello"; "add"; "change"; "phone"; "all";
       "add-birthday"; "show-birthday"; "birthdays"]%string ->
  main_iteration line w
  = (Ok false,
     mkWorld (book w) (stdout w ++ ["Invalid command."%string]) (today w)).
Proof.
  intros Hparse Hunknown. unfold main_iteration, bind, lift. rewrite Hparse.
  repeat match goal with
         | |- context [String.eqb command ?s] =>
             replace (String.eqb command s) with false
               by (symmetry; apply String.eqb_neq; intros ->;
                   apply Hunknown; simpl; tauto)
         end.
  reflexivity.
Qed.

Lemma unknown_command_reported_witness :
  main_iteration "delete Bob" spec_scenario
  = (Ok false,
     mkWorld (book spec_scenario)
       (stdout spec_scenario ++ ["Invalid command."%string]) (today spec_scenario)).
Proof.
  apply (unknown_command_reported "delete Bob" "delete" ["Bob"%string] spec_scenario).
  - reflexivity.
  - simpl. intros H.
    repeat (destruct H as [H | H]; [ discriminate H | ]). exact H.
Defined.

Lemma main_loop_keeps_book_ok (stdin : list string) :
  forall w, book_ok (book w) -> book_ok (book (snd (main_loop stdin w))).
Proof.
  induction stdin as [ | line rest IH]; intros w Hbook; simpl.
  - exact Hbook.
  - unfold bind at 1. unfold print at 1. unfold bind.
    set (w1 := mkWorld (book w) (stdout w ++ ["Enter a command: "%string])%list
                 (today w)).
    assert (Hbook1 : book_ok (book w1)) by exact Hbook.
    pose proof (main_iteration_keeps_book_ok line w1 Hbook1) as Hstep.
    destruct (main_iteration line w1) as [[[ | ] | e] w2]; simpl in *.
    + exact Hstep.
    + now apply IH.
    + exact Hstep.
Qed.

(** X6.  The loop keeps the book well formed: when every contact is
    stored under its own name, a token, with exactly one phone the
    check accepts and a birthday that is a date, the same holds after
    any lines, however the loop ends. *)
Theorem loop_keeps_book_ok (stdin : list string) w :
  book_ok (book w) -> book_ok (book (snd (main_loop stdin w))).
Proof. apply main_loop_keeps_book_ok. Qed.

Lemma spec_scenario_ok : book_ok (book spec_scenario).
Proof. repeat constructor. Qed.

Lemma loop_keeps_book_ok_witness :
  book_ok
    (book (snd (main_loop ["add Dan 0123456789"%string; "change Anna 1112223334"%string;
                           "add-birthday Dan 29.02.2024"%string; "close"%string]
                  spec_scenario))).
Proof.
  apply (loop_keeps_book_ok
           ["add Dan 0123456789"%string; "change Anna 1112223334"%string;
            "add-birthday Dan 29.02.2024"%string; "close"%string] spec_scenario).
  repeat constructor.
Defined.

(** X7.  On a well-formed book a command that fails fails with
    [ValueError] and without a trace: the world after it is the world
    before it, so nothing is half stored and nothing is printed. *)
Theorem failed_command_leaves_no_trace w (line : string) (e : exn) :
  book_ok (book w) ->
  fst (main_iteration line w) = Raise e ->
  fst e = ValueError /\ snd (main_iteration line w) = w.
Proof.
  intros Hbook. destruct (main_iteration_run line w) as (r & w' & -> & Heff).
  simpl. intros ->. inversion Heff as [e' He Hr Hw | | | ]; subst.
  split; [ | reflexivity ].
  destruct He as [He | (_ & name & found & Hfound & Hphones)]; [ exact He | ].
  apply (book_ok_get _ _ _ Hbook) in Hfound.
  apply record_ok_spec in Hfound as (_ & _ & (p & Hp & _) & _).
  rewrite Hphones in Hp. discriminate.
Qed.

Lemma failed_command_leaves_no_trace_witness :
  fst (ValueError, "New phone number must be a 10-digit number."%string) = ValueError
  /\ snd (main_iteration "change Anna 12" spec_scenario) = spec_scenario.
Proof.
  apply (failed_command_leaves_no_trace spec_scenario "change Anna 12").
  - repeat constructor.
  - reflexivity.
Defined.

(** ** Birthdays *)

Lemma digit_cases (k : Z) :
  0 <= k <= 9 ->
  k = 0 \/ k = 1 \/ k = 2 \/ k = 3 \/ k = 4 \/ k = 5 \/ k = 6 \/ k = 7 \/ k = 8 \/ k = 9.
Proof. lia. Qed.

Lemma code_digit (k : Z) : 0 <= k <= 9 -> PyStr.code (PyStr.digit k) = 48 + k.
Proof.
  intros H. apply digit_cases in H.
  repeat (destruct H as [-> | H]; [ reflexivity | ]). subst. reflexivity.
Qed.

Lemma day_directive_pad2 (d : Z) (rest : string) :
  1 <= d <= 31 ->
  Strptime.day_directive (PyStr.pad2 d ++ "." ++ rest) = Some (d, rest).
Proof.
  intros H.
  assert (Hd : 0 <= d / 10 <= 3 /\ 0 <= d mod 10 <= 9 /\ d = 10 * (d / 10) + d mod 10
               /\ (d / 10 = 0 -> 1 <= d mod 10) /\ (d / 10 = 3 -> d mod 10 <= 1))
    by (Z.to_euclidean_division_equations; lia).
  destruct Hd as (Ha & Hb & Hsum & Hlo & Hhi).
  unfold PyStr.pad2. simpl append.
  unfold Strptime.day_directive, Strptime.is_char, Strptime.between, Strptime.val.
  rewrite !code_digit by lia.
  change (PyStr.code ".") with 46.
  replace (48 + d mod 10 =? Strptime.dot) with false
    by (symmetry; apply Z.eqb_neq; unfold Strptime.dot; lia).
  change (46 =? Strptime.dot) with true. cbv [negb].
  match goal with
  | |- (if ?c then _ else _) = _ =>
      replace c with true
  end.
  - f_equal. f_equal. lia.
  - symmetry.
    rewrite !orb_true_iff, !andb_true_iff, !Z.leb_le, !Z.eqb_eq. lia.
Qed.

Lemma month_directive_pad2 (m : Z) (rest : string) :
  1 <= m <= 12 ->
  Strptime.month_directive (PyStr.pad2 m ++ "." ++ rest) = Some (m, rest).
Proof.
  intros H.
  assert (Hd : 0 <= m / 10 <= 1 /\ 0 <= m mod 10 <= 9 /\ m = 10 * (m / 10) + m mod 10
               /\ (m / 10 = 0 -> 1 <= m mod 10) /\ (m / 10 = 1 -> m mod 10 <= 2))
    by (Z.to_euclidean_division_equations; lia).
  destruct Hd as (Ha & Hb & Hsum & Hlo & Hhi).
  unfold PyStr.pad2. simpl append.
  unfold Strptime.month_directive, Strptime.is_char, Strptime.between, Strptime.val.
  rewrite !code_digit by lia.
  change (PyStr.code ".") with 46.
  replace (48 + m mod 10 =? Strptime.dot) with false
    by (symmetry; apply Z.eqb_neq; unfold Strptime.dot; lia).
  change (46 =? Strptime.dot) with true. cbv [negb].
  match goal with
  | |- (if ?c then _ else _) = _ =>
      replace c with true
  end.
  - f_equal. f_equal. lia.
  - symmetry.
    rewrite !orb_true_iff, !andb_true_iff, !Z.leb_le, !Z.eqb_eq. lia.
Qed.

Lemma year_directive_pad4 (y : Z) :
  0 <= y <= 9999 -> Strptime.year_directive (PyStr.pad4 y) = Some y.
Proof.
  intros H.
  assert (Hd : 0 <= y / 1000 <= 9 /\ 0 <= (y / 100) mod 10 <= 9
               /\ 0 <= (y / 10) mod 10 <= 9 /\ 0 <= y mod 10 <= 9
               /\ y = 1000 * (y / 1000) + 100 * ((y / 100) mod 10)
                      + 10 * ((y / 10) mod 10) + y mod 10)
    by (Z.to_euclidean_division_equations; lia).
  destruct Hd as (Ha & Hb & Hc & Hd & Hsum).
  unfold PyStr.pad4, Strptime.year_directive, Strptime.between, Strptime.val.
  rewrite !code_digit by lia.
  match goal with
  | |- (if ?c then _ else _) = _ => replace c with true
  end.
  - f_equal. lia.
  - symmetry. rewrite !andb_true_iff, !Z.leb_le. lia.
Qed.

Lemma decimal_four_digits (y : Z) : 1000 <= y -> PyStr.decimal y = PyStr.pad4 y.
Proof.
  intros H. unfold PyStr.decimal.
  replace (y <? 10) with false by (symmetry; apply Z.ltb_ge; lia).
  replace (y <? 100) with false by (symmetry; apply Z.ltb_ge; lia).
  replace (y <? 1000) with false by (symmetry; apply Z.ltb_ge; lia).
  reflexivity.
Qed.

(** X8.  What the program prints for a birthday it reads back: for a
    date with a four-digit year, [Birthday] applied to the date written
    as DD.MM.YYYY, the way [Record.__str__] writes it, gives that date. *)
Theorem birthday_round_trip (d : date) :
  valid_date d = true -> 1000 <= year d ->
  Birthday (strftime_dmY d) = Ok d.
Proof.
  intros Hvalid Hyear. pose proof Hvalid as Hv.
  unfold valid_date in Hv. apply valid_ymd_spec in Hv as (Hy & Hm & Hd).
  pose proof (days_in_month_pos (year d) (month d) Hm) as Hdim.
  unfold Birthday, Strptime.strptime_dmY, strftime_dmY.
  rewrite (decimal_four_digits _ Hyear).
  rewrite day_directive_pad2 by lia.
  rewrite month_directive_pad2 by lia.
  rewrite year_directive_pad4 by lia.
  rewrite (datetime_date_valid _ _ _ Hvalid). destruct d; reflexivity.
Qed.

Lemma birthday_round_trip_witness :
  Birthday (strftime_dmY (mkdate 2024 2 29)) = Ok (mkdate 2024 2 29).
Proof.
  apply (birthday_round_trip (mkdate 2024 2 29)); [ reflexivity | simpl; lia ].
Defined.

(** X9.  [Birthday] has two outcomes: a calendar date, or [ValueError]
    with the message "Invalid date format. Use DD.MM.YYYY"; a text that
    parses but names no date, such as 31.02.2000, is of the second
    kind. *)
Theorem birthday_is_date_or_format_error (value : string) :
  (exists d, Birthday value = Ok d /\ valid_date d = true)
  \/ Birthday value
     = Raise (ValueError, "Invalid date format. Use DD.MM.YYYY"%string).
Proof.
  destruct (Birthday value) as [d | e] eqn:HB.
  - left. exists d. split; [ reflexivity | eapply Birthday_valid; eauto ].
  - right. apply Birthday_only_ValueError in HB. now subst.
Qed.

Example birthday_february_31 :
  Birthday "31.02.2000"
  = Raise (ValueError, "Invalid date format. Use DD.MM.YYYY"%string).
Proof. reflexivity. Qed.

Lemma dict_set_same_view {B : Type} (g : Record.t -> B) name r found data :
  Dict.get name data = Some found -> g r = g found ->
  map (fun kv => (fst kv, g (snd kv))) (Dict.set name r data)
  = map (fun kv => (fst kv, g (snd kv))) data.
Proof.
  intros Hget Hg. induction data as [ | [k v] data IH]; simpl in *; [ discriminate | ].
  destruct (String.eqb k name); simpl.
  - injection Hget as ->. now rewrite Hg.
  - now rewrite IH.
Qed.

(** X10.  The [add-birthday] handler never raises and touches birthdays
    only: whatever its arguments, the keys of the book, every contact's
    name and phones, the output and the clock are as before. *)
Theorem add_birthday_touches_birthdays_only (args : list string) w :
  (exists message, fst (add_birthday args w) = Ok message)
  /\ map (fun kv => (fst kv, (Record.name (snd kv), Record.phones (snd kv))))
       (book (snd (add_birthday args w)))
     = map (fun kv => (fst kv, (Record.name (snd kv), Record.phones (snd kv))))
         (book w)
  /\ stdout (snd (add_birthday args w)) = stdout w
  /\ today (snd (add_birthday args w)) = today w.
Proof.
  destruct (add_birthday_effect args w)
    as (message & [Hrun | (name & found & birthday & r & Hf & Hadd & _ & Hrun)]);
    rewrite Hrun; simpl.
  - eauto.
  - split; [ eauto | ]. split; [ | auto ].
    apply (dict_set_same_view
             (fun r => (Record.name r, Record.phones r)) name r found);
      [ exact Hf | ].
    unfold Record.add_birthday, result_bind in Hadd.
    destruct (Birthday birthday); [ | discriminate ].
    now injection Hadd as <-.
Qed.

(** X11.  After [add-birthday name value] for a contact in the book and
    a text [Birthday] accepts, the contact has that birthday with its
    name and phones kept, and [show-birthday name] answers with the
    date in ISO form, YYYY-MM-DD, not in the form it was typed in. *)
Theorem show_birthday_after_add_birthday w (name value : string)
    (found : Record.t) (d : date) :
  Dict.get name (book w) = Some found ->
  Birthday value = Ok d ->
  let w1 := snd (add_birthday [name; value] w) in
  fst (add_birthday [name; value] w)
  = Ok ("Birthday added for " ++ name ++ ".")%string
  /\ Dict.get name (book w1)
     = Some (Record.mk (Record.name found) (Record.phones found) (Some d))
  /\ show_birthday [name] w1
     = (Ok (name ++ "'s birthday: " ++ isoformat d)%string, w1).
Proof.
  intros Hfound HB.
  assert (Hrun : add_birthday [name; value] w
                 = (Ok ("Birthday added for " ++ name ++ ".")%string,
                    mkWorld
                      (Dict.set name
                         (Record.mk (Record.name found) (Record.phones found) (Some d))
                         (book w))
                      (stdout w) (today w))).
  { unfold add_birthday, input_error, try_except_ValueError, bind, lift,
      AddressBook.find, get_book, ret, write_back, put_book. simpl.
    rewrite Hfound. unfold Record.add_birthday, result_bind. rewrite HB.
    reflexivity. }
  rewrite Hrun. simpl. split; [ reflexivity | ].
  split; [ apply dict_get_set_same | ].
  unfold show_birthday, input_error, bind, lift, AddressBook.find, get_book, ret.
  simpl. rewrite dict_get_set_same. reflexivity.
Qed.

Lemma show_birthday_after_add_birthday_witness :
  let w1 := snd (add_birthday ["Bob"%string; "29.02.2024"%string] spec_scenario) in
  fst (add_birthday ["Bob"%string; "29.02.2024"%string] spec_scenario)
  = Ok ("Birthday added for " ++ "Bob" ++ ".")%string
  /\ Dict.get "Bob" (book w1)
     = Some (Record.mk "Bob" ["1234567890"%string] (Some (mkdate 2024 2 29)))
  /\ show_birthday ["Bob"%string] w1
     = (Ok ("Bob" ++ "'s birthday: " ++ isoformat (mkdate 2024 2 29))%string, w1).
Proof.
  apply (show_birthday_after_add_birthday spec_scenario "Bob" "29.02.2024"
           (record_with "Bob" (mkdate 1990 6 1)) (mkdate 2024 2 29));
    reflexivity.
Defined.

(** ** Phones *)

(** X12.  [edit_phone] with a stored old number and a new one the check
    accepts keeps the name, the birthday and the number of phones, and
    the phones afterwards are the new number together with the former
    ones other than the old number. *)
Theorem edit_phone_replaces (old_phone new_phone : string) (r : Record.t) :
  In old_phone (Record.phones r) ->
  phone_accepted new_phone = true ->
  exists r',
    Record.edit_phone old_phone new_phone r = Ok r'
    /\ Record.name r' = Record.name r
    /\ Record.birthday r' = Record.birthday r
    /\ List.length (Record.phones r') = List.length (Record.phones r)
    /\ forall q, In q (Record.phones r')
                 <-> q = new_phone \/ (q <> old_phone /\ In q (Record.phones r)).
Proof.
  intros Hold Hnew. unfold Record.edit_phone.
  assert (Hex : existsb (fun p => String.eqb p old_phone) (Record.phones r) = true).
  { apply existsb_exists. exists old_phone. split; [ exact Hold | apply String.eqb_refl ]. }
  rewrite Hex. simpl.
  unfold phone_accepted in Hnew. apply andb_true_iff in Hnew as [Hd Hl].
  rewrite Hd, Hl. simpl. eexists. split; [ reflexivity | ]. simpl.
  split; [ reflexivity | ]. split; [ reflexivity | ].
  split; [ apply length_map | ].
  intros q. rewrite in_map_iff. split.
  - intros (p & Hp & Hin). destruct (String.eqb_spec p old_phone) as [Heq | Hne].
    + left. now symmetry.
    + right. rewrite <- Hp. auto.
  - intros [-> | [Hne Hin]].
    + exists old_phone. now rewrite String.eqb_refl.
    + exists q. split; [ | exact Hin ].
      destruct (String.eqb_spec q old_phone); [ contradiction | reflexivity ].
Qed.

Lemma edit_phone_replaces_witness :
  exists r',
    Record.edit_phone "1234567890" "0987654321"
      (Record.mk "Anna" ["5555555555"; "1234567890"]%string None) = Ok r'
    /\ Record.name r' = "Anna"%string
    /\ Record.birthday r' = None
    /\ List.length (Record.phones r') = 2%nat
    /\ forall q, In q (Record.phones r')
                 <-> q = "0987654321"%string
                     \/ (q <> "1234567890"%string
                         /\ In q ["5555555555"; "1234567890"]%string).
Proof.
  apply (edit_phone_replaces "1234567890" "0987654321"
           (Record.mk "Anna" ["5555555555"; "1234567890"]%string None)).
  - simpl. right. left. reflexivity.
  - reflexivity.
Defined.

(** X13.  [edit_phone] fails in two ways only, and looks for the old
    number first: without it the error is "Phone number to edit does not
    exist." whatever the new number is; with it and a new number the
    check rejects, "New phone number must be a 10-digit number.". *)
Theorem edit_phone_errors (old_phone new_phone : string) (r : Record.t) (e : exn) :
  Record.edit_phone old_phone new_phone r = Raise e ->
  (~ In old_phone (Record.phones r)
   /\ e = (ValueError, "Phone number to edit does not exist."%string))
  \/ (In old_phone (Record.phones r)
      /\ phone_accepted new_phone = false
      /\ e = (ValueError, "New phone number must be a 10-digit number."%string)).
Proof.
  unfold Record.edit_phone.
  destruct (existsb (fun p => String.eqb p old_phone) (Record.phones r)) eqn:Hex; simpl.
  - apply existsb_exists in Hex as (p & Hin & Hp).
    destruct (String.eqb_spec p old_phone) as [Heq | ]; [ rewrite Heq in Hin | discriminate ].
    destruct (negb (PyStr.isdigit new_phone) || negb (PyStr.len new_phone =? 10))
      eqn:Hcheck; [ | discriminate ].
    intros [= <-]. right. split; [ exact Hin | ]. split; [ | reflexivity ].
    unfold phone_accepted. rewrite <- negb_andb in Hcheck.
    now apply negb_true_iff in Hcheck.
  - intros [= <-]. left. split; [ | reflexivity ].
    intros Hin. assert (Hcontra : existsb (fun p => String.eqb p old_phone)
                                    (Record.phones r) = true).
    { apply existsb_exists. exists old_phone. split; [ exact Hin | apply String.eqb_refl ]. }
    rewrite Hcontra in Hex. discriminate.
Qed.

Lemma edit_phone_errors_witness :
  (~ In "0000000000"%string ["1234567890"%string]
   /\ (ValueError, "Phone number to edit does not exist."%string)
      = (ValueError, "Phone number to edit does not exist."%string))
  \/ (In "0000000000"%string ["1234567890"%string]
      /\ phone_accepted "12" = false
      /\ (ValueError, "Phone number to edit does not exist."%string)
         = (ValueError, "New phone number must be a 10-digit number."%string)).
Proof.
  apply (edit_phone_errors "0000000000" "12"
           (Record.mk "Anna" ["1234567890"%string] None)).
  reflexivity.
Defined.

(** X14.  On a well-formed book, [change name new] for a contact in the
    book and a number the check accepts leaves the contact with that
    number as its only phone, its name and birthday kept, and reports
    the change; no other contact is touched. *)
Theorem change_replaces_the_phone w (name new_phone : string) (found : Record.t) :
  book_ok (book w) ->
  Dict.get name (book w) = Some found ->
  phone_accepted new_phone = true ->
  main_iteration (PyStr.join " " ["change"%string; name; new_phone]) w
  = (Ok false,
     mkWorld
       (Dict.set name (Record.mk name [new_phone] (Record.birthday found)) (book w))
       (stdout w ++ [("Phone number changed for " ++ name ++ ".")%string])
       (today w))
  /\ forall other, other <> name ->
       Dict.get other
         (Dict.set name (Record.mk name [new_phone] (Record.birthday found)) (book w))
       = Dict.get other (book w).
Proof.
  intros Hbook Hfound Hnew. split; [ | intros; now apply dict_get_set_other ].
  pose proof (book_ok_get _ _ _ Hbook Hfound) as Hok.
  apply record_ok_spec in Hok as (Hname & Hword & (p & Hp & _) & _).
  unfold main_iteration, bind, lift.
  rewrite (parse_tokens "change" [name; new_phone])
    by (repeat constructor; auto using phone_accepted_word).
  simpl. unfold AddressBook.find, get_book, bind, ret. simpl. rewrite Hfound.
  rewrite Hp. simpl. unfold Record.edit_phone. rewrite Hp. simpl.
  rewrite String.eqb_refl. simpl.
  unfold phone_accepted in Hnew. apply andb_true_iff in Hnew as [Hd Hl].
  rewrite Hd, Hl, Hname. reflexivity.
Qed.

Lemma change_replaces_the_phone_witness :
  main_iteration (PyStr.join " " ["change"; "Anna"; "0987654321"]%string) spec_scenario
  = (Ok false,
     mkWorld
       (Dict.set "Anna"
          (Record.mk "Anna" ["0987654321"%string] (Some (mkdate 1990 6 15)))
          (book spec_scenario))
       (stdout spec_scenario ++ [("Phone number changed for " ++ "Anna" ++ ".")%string])
       (today spec_scenario))
  /\ forall other, other <> "Anna"%string ->
       Dict.get other
         (Dict.set "Anna"
            (Record.mk "Anna" ["0987654321"%string] (Some (mkdate 1990 6 15)))
            (book spec_scenario))
       = Dict.get other (book spec_scenario).
Proof.
  apply (change_replaces_the_phone spec_scenario "Anna" "0987654321"
           (record_with "Anna" (mkdate 1990 6 15))).
  - repeat constructor.
  - reflexivity.
  - reflexivity.
Defined.

(** X15.  What [add] stores [phone] shows: after "add name phone" with a
    name that is a token and a number the check accepts, "phone name"
    prints that number and changes nothing. *)
Theorem phone_after_add w (name phone : string) :
  is_word name = true ->
  phone_accepted phone = true ->
  let w1 := snd (main_iteration (PyStr.join " " ["add"%string; name; phone]) w) in
  fst (main_iteration (PyStr.join " " ["add"%string; name; phone]) w) = Ok false
  /\ main_iteration (PyStr.join " " ["phone"%string; name]) w1
     = (Ok false,
        mkWorld (book w1)
          (stdout w1 ++ [("Phone number for " ++ name ++ ": " ++ phone)%string])
          (today w1)).
Proof.
  intros Hname Hphone.
  assert (Hadd : main_iteration (PyStr.join " " ["add"%string; name; phone]) w
                 = (Ok false,
                    mkWorld (Dict.set name (Record.mk name [phone] None) (book w))
                      (stdout w
                       ++ [("Added new contact: " ++ name ++ " - " ++ phone)%string])
                      (today w))).
  { unfold main_iteration, bind, lift.
    rewrite (parse_tokens "add" [name; phone])
      by (repeat constructor; auto using phone_accepted_word).
    simpl. unfold Record.init, Name.
    apply is_word_spec in Hname as [Hne _]. rewrite Hne. simpl.
    unfold Record.add_phone. rewrite (proj2 (Phone_accepted phone) Hphone).
    reflexivity. }
  rewrite Hadd. cbv zeta. cbn [fst snd]. split; [ reflexivity | ].
  unfold main_iteration, bind, lift.
  rewrite (parse_tokens "phone" [name]) by (repeat constructor; auto).
  simpl. unfold AddressBook.find, get_book, bind, ret. simpl.
  rewrite dict_get_set_same. reflexivity.
Qed.

Lemma phone_after_add_witness :
  let w1 :=
    snd (main_iteration (PyStr.join " " ["add"; "Dan"; "0123456789"]%string)
           spec_scenario) in
  fst (main_iteration (PyStr.join " " ["add"; "Dan"; "0123456789"]%string)
         spec_scenario) = Ok false
  /\ main_iteration (PyStr.join " " ["phone"; "Dan"]%string) w1
     = (Ok false,
        mkWorld (book w1)
          (stdout w1 ++ [("Phone number for " ++ "Dan" ++ ": " ++ "0123456789")%string])
          (today w1)).
Proof.
  apply (phone_after_add spec_scenario "Dan" "0123456789"); reflexivity.
Defined.

(** X16.  On input made of ASCII characters [Phone] accepts exactly the
    strings of ten decimal digits; any other ASCII string raises
    [ValueError] with "Phone number must have 10 digits.". *)
Theorem phone_on_ascii (phone : string) :
  is_ascii phone = true ->
  (PyStr.ten_decimal_digits phone = true -> Phone phone = Ok phone)
  /\ (PyStr.ten_decimal_digits phone = false ->
      Phone phone = Raise (ValueError, "Phone number must have 10 digits."%string)).
Proof.
  intros Hascii. rewrite <- (phone_accepted_ascii phone Hascii). split.
  - apply Phone_accepted.
  - unfold phone_accepted, Phone. intros H.
    apply andb_false_iff in H as [-> | ->]; simpl; [ reflexivity | ].
    now rewrite orb_true_r.
Qed.

Lemma phone_on_ascii_witness :
  (PyStr.ten_decimal_digits "12345-6789" = true ->
   Phone "12345-6789" = Ok "12345-6789"%string)
  /\ (PyStr.ten_decimal_digits "12345-6789" = false ->
      Phone "12345-6789"
      = Raise (ValueError, "Phone number must have 10 digits."%string)).
Proof. apply (phone_on_ascii "12345-6789"). reflexivity. Defined.

(** ** Removing a phone *)

Lemma list_pair_ind {A : Type} (P : list A -> Prop) :
  P [] ->
  (forall a, P [a]) ->
  (forall a b l, P l -> P (b :: l) -> P (a :: b :: l)) ->
  forall l, P l.
Proof.
  intros Hnil Hone Hstep l.
  assert (H : P l /\ forall a, P (a :: l)).
  { induction l as [ | b l [IHl IHcons]].
    - split; [ exact Hnil | exact Hone ].
    - split; [ apply IHcons | ]. intros a. apply Hstep; [ exact IHl | apply IHcons ]. }
  apply H.
Qed.

Lemma remove_phone_loop_others phone l :
  filter (is_not phone) (Record.remove_phone_loop phone l) = filter (is_not phone) l.
Proof.
  unfold is_not.
  induction l as [ | a | a b l IHl IHbl] using list_pair_ind.
  - reflexivity.
  - simpl. destruct (String.eqb a phone) eqn:Ha; simpl; rewrite ?Ha; reflexivity.
  - change (Record.remove_phone_loop phone (a :: b :: l))
      with (if String.eqb a phone
            then b :: Record.remove_phone_loop phone l
            else a :: Record.remove_phone_loop phone (b :: l)).
    destruct (String.eqb a phone) eqn:Ha.
    + simpl. rewrite Ha, IHl. reflexivity.
    + cbn [filter]. rewrite Ha. cbn [negb]. f_equal. exact IHbl.
Qed.

Lemma neighbours_skip phone b l :
  String.eqb b phone = false -> neighbours phone (b :: l) = neighbours phone l.
Proof.
  intros Hb. destruct l as [ | c l]; [ reflexivity | ].
  change (neighbours phone (b :: c :: l))
    with ((String.eqb b phone && String.eqb c phone) || neighbours phone (c :: l)).
  now rewrite Hb.
Qed.

Lemma remove_phone_loop_survivor phone l :
  In phone (Record.remove_phone_loop phone l) <-> neighbours phone l = true.
Proof.
  induction l as [ | a | a b l IHl IHbl] using list_pair_ind.
  - simpl. split; [ tauto | discriminate ].
  - simpl. destruct (String.eqb_spec a phone); simpl.
    + split; [ tauto | discriminate ].
    + split; [ intros [H | []]; contradiction | discriminate ].
  - change (Record.remove_phone_loop phone (a :: b :: l))
      with (if String.eqb a phone
            then b :: Record.remove_phone_loop phone l
            else a :: Record.remove_phone_loop phone (b :: l)).
    change (neighbours phone (a :: b :: l))
      with ((String.eqb a phone && String.eqb b phone) || neighbours phone (b :: l)).
    destruct (String.eqb_spec a phone) as [Ha | Ha]; cbn [andb orb].
    + destruct (String.eqb_spec b phone) as [Hb | Hb]; cbn [andb orb].
      * split; [ reflexivity | intros _; left; exact Hb ].
      * rewrite neighbours_skip by (now apply String.eqb_neq).
        rewrite <- IHl. cbn [In].
        split; [ intros [H | H]; [ contradiction | exact H ] | auto ].
    + rewrite <- IHbl. cbn [In].
      split; [ intros [H | H]; [ contradiction | exact H ] | auto ].
Qed.

(** X17.  [remove_phone] takes away nothing but the number asked for:
    the name and the birthday stay, and the other numbers stay, each as
    often as before and in the same order. *)
Theorem remove_phone_keeps_the_others (phone : string) (r : Record.t) :
  Record.name (Record.remove_phone phone r) = Record.name r
  /\ Record.birthday (Record.remove_phone phone r) = Record.birthday r
  /\ filter (is_not phone) (Record.phones (Record.remove_phone phone r))
     = filter (is_not phone) (Record.phones r).
Proof.
  split; [ reflexivity | ]. split; [ reflexivity | ].
  apply remove_phone_loop_others.
Qed.

(** X18.  [remove_phone] removes every copy of the number exactly when
    no two copies stand next to each other in the list: the loop passes
    over the phone that follows one it removed, so of two neighbouring
    copies one stays. *)
Theorem remove_phone_misses_neighbours (phone : string) (r : Record.t) :
  (In phone (Record.phones (Record.remove_phone phone r))
   <-> neighbours phone (Record.phones r) = true)
  /\ (neighbours phone (Record.phones r) = false ->
      Record.phones (Record.remove_phone phone r)
      = filter (is_not phone) (Record.phones r)).
Proof.
  split; [ apply remove_phone_loop_survivor | ].
  intros Hnone. simpl. rewrite <- remove_phone_loop_others.
  symmetry. apply forallb_filter_id. apply forallb_forall. intros q Hq.
  unfold is_not. apply negb_true_iff. apply String.eqb_neq. intros ->.
  apply remove_phone_loop_survivor in Hq. rewrite Hq in Hnone. discriminate.
Qed.

Example remove_phone_twice_in_a_row :
  Record.phones
    (Record.remove_phone "1234567890"
       (Record.mk "Anna" ["1234567890"; "1234567890"; "5555555555"]%string None))
  = ["1234567890"; "5555555555"]%string.
Proof. reflexivity. Qed.

(** ** Deleting and adding contacts *)

Lemma dict_get_none_keys {V : Type} k (d : Dict.t V) :
  Dict.get k d = None <-> ~ In k (Dict.keys d).
Proof.
  unfold Dict.keys. induction d as [ | [k' v] d IH]; simpl.
  - tauto.
  - destruct (String.eqb_spec k' k) as [-> | Hne].
    + split; [ discriminate | intros H; exfalso; apply H; now left ].
    + rewrite IH. split; [ intros H [Heq | Hin]; auto | tauto ].
Qed.

Lemma dict_del_absent {V : Type} k (d : Dict.t V) :
  Dict.get k d = None -> Dict.del k d = d.
Proof.
  induction d as [ | [k' v] d IH]; simpl; [ reflexivity | ].
  destruct (String.eqb k' k); [ discriminate | ].
  intros H. now rewrite IH.
Qed.

Lemma filter_is_not_absent k (keys : list string) :
  ~ In k keys -> filter (is_not k) keys = keys.
Proof.
  intros H. apply forallb_filter_id. apply forallb_forall. intros q Hq.
  unfold is_not. apply negb_true_iff. apply String.eqb_neq. intros ->. contradiction.
Qed.

Lemma dict_del_get_same {V : Type} k (d : Dict.t V) :
  NoDup (Dict.keys d) -> Dict.get k (Dict.del k d) = None.
Proof.
  unfold Dict.keys. induction d as [ | [k' v] d IH]; simpl; [ reflexivity | ].
  intros Hnd. inversion Hnd as [ | ? ? Hnotin Hrest]; subst.
  destruct (String.eqb_spec k' k) as [-> | Hne]; simpl.
  - now apply dict_get_none_keys.
  - destruct (String.eqb_spec k' k); [ contradiction | ]. now apply IH.
Qed.

Lemma dict_del_get_other {V : Type} k other (d : Dict.t V) :
  other <> k -> Dict.get other (Dict.del k d) = Dict.get other d.
Proof.
  intros Hne. induction d as [ | [k' v] d IH]; simpl; [ reflexivity | ].
  destruct (String.eqb_spec k' k) as [-> | Hk]; simpl.
  - destruct (String.eqb_spec k other); [ congruence | reflexivity ].
  - now rewrite IH.
Qed.

Lemma dict_del_keys {V : Type} k (d : Dict.t V) :
  NoDup (Dict.keys d) -> Dict.keys (Dict.del k d) = filter (is_not k) (Dict.keys d).
Proof.
  unfold Dict.keys. induction d as [ | [k' v] d IH]; simpl; [ reflexivity | ].
  intros Hnd. inversion Hnd as [ | ? ? Hnotin Hrest]; subst.
  unfold is_not at 1. destruct (String.eqb_spec k' k) as [-> | Hne]; simpl.
  - symmetry. now apply filter_is_not_absent.
  - now rewrite IH.
Qed.

Lemma dict_mem_false {V : Type} k (d : Dict.t V) :
  Dict.mem k d = false -> Dict.get k d = None.
Proof.
  unfold Dict.mem. induction d as [ | [k' v] d IH]; simpl; [ reflexivity | ].
  destruct (String.eqb k' k); simpl; [ discriminate | exact IH ].
Qed.

(** X19.  [delete(name)] on a book takes out the contact under that
    name and no other, keeps the order of the rest, records the name in
    the book's [name] attribute, and does nothing else, and raises
    nothing, when the name is not in the book. *)
Theorem delete_removes_the_key (name : string) (data : AddressBook.t)
    (attribute : option string) :
  NoDup (Dict.keys data) ->
  snd (AddressBook.delete name (data, attribute)) = Some name
  /\ Dict.get name (fst (AddressBook.delete name (data, attribute))) = None
  /\ (forall other, other <> name ->
        Dict.get other (fst (AddressBook.delete name (data, attribute)))
        = Dict.get other data)
  /\ Dict.keys (fst (AddressBook.delete name (data, attribute)))
     = filter (is_not name) (Dict.keys data)
  /\ (Dict.get name data = None ->
      fst (AddressBook.delete name (data, attribute)) = data).
Proof.
  intros Hnd.
  assert (Hdel : fst (AddressBook.delete name (data, attribute)) = Dict.del name data).
  { unfold AddressBook.delete. simpl.
    destruct (Dict.mem name data) eqn:Hmem; [ reflexivity | ].
    symmetry. apply dict_del_absent. now apply dict_mem_false. }
  rewrite Hdel. split; [ reflexivity | ].
  split; [ now apply dict_del_get_same | ].
  split; [ intros other Hne; now apply dict_del_get_other | ].
  split; [ now apply dict_del_keys | apply dict_del_absent ].
Qed.

Lemma delete_removes_the_key_witness :
  snd (AddressBook.delete "Bob" (book spec_scenario, None)) = Some "Bob"%string
  /\ Dict.get "Bob" (fst (AddressBook.delete "Bob" (book spec_scenario, None))) = None
  /\ (forall other, other <> "Bob"%string ->
        Dict.get other (fst (AddressBook.delete "Bob" (book spec_scenario, None)))
        = Dict.get other (book spec_scenario))
  /\ Dict.keys (fst (AddressBook.delete "Bob" (book spec_scenario, None)))
     = filter (is_not "Bob") (Dict.keys (book spec_scenario))
  /\ (Dict.get "Bob" (book spec_scenario) = None ->
      fst (AddressBook.delete "Bob" (book spec_scenario, None)) = book spec_scenario).
Proof.
  apply (delete_removes_the_key "Bob" (book spec_scenario) None).
  repeat constructor; simpl; intros H;
    repeat (destruct H as [H | H]; [ discriminate H | ]); exact H.
Defined.

Lemma dict_set_absent {V : Type} k (v : V) (d : Dict.t V) :
  Dict.get k d = None -> Dict.set k v d = (d ++ [(k, v)])%list.
Proof.
  induction d as [ | [k' v'] d IH]; simpl; [ reflexivity | ].
  destruct (String.eqb k' k); [ discriminate | ].
  intros H. now rewrite IH.
Qed.

(** X20.  [add_record] with a name the book does not hold puts the
    record last, after all the contacts already there and without
    changing them, and [find] then returns it. *)
Theorem add_record_appends_new_name (record : Record.t) w :
  Dict.get (Record.name record) (book w) = None ->
  AddressBook.add_record record w
  = (Ok tt,
     mkWorld (book w ++ [(Record.name record, record)])%list (stdout w) (today w))
  /\ fst (AddressBook.find (Record.name record)
            (snd (AddressBook.add_record record w)))
     = Ok (Some record).
Proof.
  intros Hnew.
  unfold AddressBook.add_record, AddressBook.find, bind, get_book, put_book, ret.
  simpl. split.
  - now rewrite (dict_set_absent _ _ _ Hnew).
  - now rewrite dict_get_set_same.
Qed.

Lemma add_record_appends_new_name_witness :
  AddressBook.add_record (record_with "Dan" (mkdate 1991 6 13)) spec_scenario
  = (Ok tt,
     mkWorld
       (book spec_scenario ++ [("Dan"%string, record_with "Dan" (mkdate 1991 6 13))])%list
       (stdout spec_scenario) (today spec_scenario))
  /\ fst (AddressBook.find "Dan"
            (snd (AddressBook.add_record (record_with "Dan" (mkdate 1991 6 13))
                    spec_scenario)))
     = Ok (Some (record_with "Dan" (mkdate 1991 6 13))).
Proof.
  apply (add_record_appends_new_name (record_with "Dan" (mkdate 1991 6 13))
           spec_scenario).
  reflexivity.
Defined.

(** A birthday of the year 812, which [Birthday] accepts written with
    four digits, is printed by [Record.__str__] with three. *)
Example birthday_before_year_1000 :
  Birthday "07.04.0812" = Ok (mkdate 812 4 7)
  /\ Record.str (Record.mk "Bob" ["1234567890"%string] (Some (mkdate 812 4 7)))
     = "Contact name: Bob, phones: 1234567890, birthday: 07.04.812"%string
  /\ isoformat (mkdate 812 4 7) = "0812-04-07"%string.
Proof. repeat split; reflexivity. Qed.

(** X21.  The [all] command prints the heading and then one line for
    each contact, in the order the contacts were first added, and
    changes nothing in the book; tokens after the command are
    ignored. *)
Theorem all_lists_every_contact (line : string) w :
  verb_is line "all" ->
  main_iteration line w
  = (Ok false,
     mkWorld (book w)
       (stdout w ++ "All contacts:"%string :: map Record.str (Dict.values (book w)))%list
       (today w)).
Proof.
  intros [args Hparse]. unfold main_iteration, bind, lift. rewrite Hparse.
  simpl. rewrite for_each_print. simpl. now rewrite <- app_assoc.
Qed.

Lemma all_lists_every_contact_witness :
  main_iteration "ALL please" spec_scenario
  = (Ok false,
     mkWorld (book spec_scenario)
       (stdout spec_scenario
        ++ "All contacts:"%string :: map Record.str (Dict.values (book spec_scenario)))%list
       (today spec_scenario)).
Proof.
  apply (all_lists_every_contact "ALL please" spec_scenario).
  exists ["please"%string]. reflexivity.
Defined.

(** ** The dates that are reported *)

Lemma congratulates_working_day today e r :
  spec_in_window today r = true ->
  congratulates today e r ->
  exists emitted,
    congratulation_date e = strftime_dmY emitted
    /\ valid_date emitted = true
    /\ 0 <= weekday emitted <= 4
    /\ 0 <= days_between emitted today <= 8.
Proof.
  intros Hwin (b & c & emitted & Hb & Hc & _ & Hdate & Hvalid & Hsat & Hsun & Hday).
  unfold spec_in_window in Hwin. rewrite Hb, Hc in Hwin.
  apply andb_true_iff in Hwin as [Hlo Hhi].
  apply Z.leb_le in Hlo. apply Z.ltb_lt in Hhi.
  exists emitted. split; [ exact Hdate | ]. split; [ exact Hvalid | ].
  unfold days_between, weekday in *.
  destruct (Z.eq_dec ((toordinal c + 6) mod 7) 5) as [H5 | H5].
  - specialize (Hsat H5). split; [ | lia ].
    replace (toordinal emitted) with (toordinal c + 2) by lia.
    revert H5. generalize (toordinal c). intros n H5.
    Z.to_euclidean_division_equations. lia.
  - destruct (Z.eq_dec ((toordinal c + 6) mod 7) 6) as [H6 | H6].
    + specialize (Hsun H6). split; [ | lia ].
      replace (toordinal emitted) with (toordinal c + 1) by lia.
      revert H6. generalize (toordinal c). intros n H6.
      Z.to_euclidean_division_equations. lia.
    + rewrite (Hday H5 H6). split; [ | lia ].
      revert H5 H6. generalize (toordinal c). intros n H5 H6.
      Z.to_euclidean_division_equations. lia.
Qed.

(** X22.  Every date [get_upcoming_birthdays] reports is a working day,
    Monday to Friday, and lies between today and eight days ahead: a
    birthday six days ahead on a Saturday is reported for the Monday
    after it. *)
Theorem reported_dates_are_working_days w (l : list entry) :
  valid_date (today w) = true ->
  fst (AddressBook.get_upcoming_birthdays w) = Ok l ->
  Forall
    (fun e =>
       exists emitted,
         congratulation_date e = strftime_dmY emitted
         /\ valid_date emitted = true
         /\ 0 <= weekday emitted <= 4
         /\ 0 <= days_between emitted (today w) <= 8)
    l.
Proof.
  intros Htoday Hrun. rewrite get_upcoming_birthdays_unfold in Hrun.
  apply (upcoming_loop_entries _ _ Htoday) in Hrun as (l' & -> & Hall).
  simpl app.
  assert (Hin : Forall (fun r => spec_in_window (today w) r = true)
                  (filter (spec_in_window (today w)) (Dict.values (book w)))).
  { apply Forall_forall. intros r Hr. now apply filter_In in Hr. }
  revert Hin. induction Hall as [ | e r es rs Her _ IH]; intros Hin.
  - constructor.
  - inversion Hin as [ | ? ? Hr Hrs]; subst. constructor.
    + eapply congratulates_working_day; eauto.
    + now apply IH.
Qed.

Lemma reported_dates_are_working_days_witness :
  Forall
    (fun e =>
       exists emitted,
         congratulation_date e = strftime_dmY emitted
         /\ valid_date emitted = true
         /\ 0 <= weekday emitted <= 4
         /\ 0 <= days_between emitted (today spec_scenario) <= 8)
    [mk_entry "Anna" "17.06.2024"].
Proof.
  apply (reported_dates_are_working_days spec_scenario); reflexivity.
Defined.

(** ** The files *)

(** X23.  [main] writes the file only when the loop has ended normally,
    which takes a line "close" or "exit": then addressbook.pkl holds the
    book the loop ended with, started on the loaded book after the
    welcome line, every other file is as before, what was printed is
    the loop's output, and that book is well formed when the loaded
    book was.  When [main] ends with an exception the files are as they
    were, so what was entered in that run is lost. *)
Theorem main_saves_only_on_close (blob : Type)
    (pickle_dump : AddressBook.t -> blob)
    (pickle_load : blob -> result AddressBook.t)
    (stdin : list string) (clock : date) (fs fs' : FileSystem blob)
    (r : result unit) (printed : list string) :
  main pickle_dump pickle_load stdin clock fs = (r, printed, fs') ->
  match r with
  | Raise _ => fs' = fs
  | Ok _ =>
      (exists line, In line stdin /\ (verb_is line "close" \/ verb_is line "exit"))
      /\ exists loaded,
           load_data pickle_load default_filename fs = Ok loaded
           /\ let final :=
                snd (main_loop stdin
                       (mkWorld loaded ["Welcome to the assistant bot!"%string] clock)) in
              fs' default_filename = Some (pickle_dump (book final))
              /\ (forall f, f <> default_filename -> fs' f = fs f)
              /\ printed = stdout final
              /\ (book_ok loaded -> book_ok (book final))
  end.
Proof.
  unfold main.
  destruct (load_data pickle_load default_filename fs) as [loaded | e] eqn:Hload.
  2: { intros [= <- _ <-]. reflexivity. }
  unfold bind at 1. unfold print at 1. cbn [book stdout today app].
  set (w0 := mkWorld loaded ["Welcome to the assistant bot!"%string] clock).
  pose proof (main_loop_returns_by_close stdin w0) as Hclose.
  pose proof (main_loop_keeps_book_ok stdin w0) as Hkeep.
  destruct (main_loop stdin w0) as [[[] | e] final] eqn:Hrun.
  - intros [= <- <- <-]. split; [ apply Hclose; reflexivity | ].
    exists loaded. split; [ reflexivity | ]. fold w0. rewrite Hrun. cbn [snd].
    split; [ unfold save_data; now rewrite String.eqb_refl | ].
    split; [ | split; [ reflexivity | exact Hkeep ] ].
    intros f Hf. unfold save_data.
    destruct (String.eqb_spec f default_filename); [ contradiction | reflexivity ].
  - intros [= <- _ <-]. reflexivity.
Qed.

Lemma main_saves_only_on_close_witness :
  (exists line,
     In line ["add Dan 0123456789"%string; "close"%string]
     /\ (verb_is line "close" \/ verb_is line "exit"))
  /\ exists loaded,
       load_data (blob := AddressBook.t) Ok default_filename (fun _ => None) = Ok loaded
       /\ let final :=
            snd (main_loop ["add Dan 0123456789"%string; "close"%string]
                   (mkWorld loaded ["Welcome to the assistant bot!"%string]
                      (mkdate 2024 6 10))) in
          save_data (fun b : AddressBook.t => b)
            [("Dan"%string, Record.mk "Dan" ["0123456789"%string] None)]
            default_filename (fun _ => None) default_filename
          = Some (book final)
          /\ (forall f, f <> default_filename ->
                save_data (fun b : AddressBook.t => b)
                  [("Dan"%string, Record.mk "Dan" ["0123456789"%string] None)]
                  default_filename (fun _ => None) f
                = None)
          /\ ["Welcome to the assistant bot!"; "Enter a command: ";
              "Added new contact: Dan - 0123456789"; "Enter a command: ";
              "Good bye!"]%string
             = stdout final
          /\ (book_ok loaded -> book_ok (book final)).
Proof.
  apply (main_saves_only_on_close AddressBook.t (fun b => b) Ok
           ["add Dan 0123456789"%string; "close"%string] (mkdate 2024 6 10)
           (fun _ => None)
           (save_data (fun b => b)
              [("Dan"%string, Record.mk "Dan" ["0123456789"%string] None)]
              default_filename (fun _ => None))
           (Ok tt)
           ["Welcome to the assistant bot!"; "Enter a command: ";
            "Added new contact: Dan - 0123456789"; "Enter a command: ";
            "Good bye!"]%string).
  reflexivity.
Defined.

(** X24.  [SimpleBot.return_all] prints what was saved: with a
    serialisation that reads back what it wrote, after [save_data] it
    prints one line for each contact of the saved book, in the book's
    order, the same lines the [all] command prints; without a file it
    prints nothing. *)
Theorem simple_bot_prints_saved_book (blob : Type)
    (pickle_dump : AddressBook.t -> blob)
    (pickle_load : blob -> result AddressBook.t) :
  (forall b, pickle_load (pickle_dump b) = Ok b) ->
  (forall (saved : AddressBook.t) (fs : FileSystem blob) w,
     SimpleBot_return_all pickle_load
       (save_data pickle_dump saved default_filename fs) w
     = (Ok tt,
        mkWorld (book w) (stdout w ++ map Record.str (Dict.values saved))%list
          (today w)))
  /\ (forall w, SimpleBot_return_all pickle_load (fun _ => None) w = (Ok tt, w)).
Proof.
  intros Hpickle. split.
  - intros saved fs w. unfold SimpleBot_return_all, bind, lift, load_data, save_data.
    rewrite String.eqb_refl, Hpickle. apply for_each_print.
  - intros w. unfold SimpleBot_return_all, bind, lift, load_data. reflexivity.
Qed.

Lemma simple_bot_prints_saved_book_witness :
  (forall (saved : AddressBook.t) (fs : FileSystem AddressBook.t) w,
     SimpleBot_return_all Ok (save_data (fun b => b) saved default_filename fs) w
     = (Ok tt,
        mkWorld (book w) (stdout w ++ map Record.str (Dict.values saved))%list
          (today w)))
  /\ (forall w,
        SimpleBot_return_all (blob := AddressBook.t) Ok (fun _ => None) w = (Ok tt, w)).
Proof.
  apply (simple_bot_prints_saved_book AddressBook.t (fun b => b) Ok).
  intros b. reflexivity.
Defined.
